(** * Simple notes app: transport, resource client and coordinator

    A shallow embedding of the notes front end:
    - [utils/validation.js]  ([sanitizeNoteInput], [validateNote]),
    - [api/client.js]        ([apiRequest]),
    - [hooks/useNotesApi.js] ([withLoading], [listNotes], [getNote],
                              [createNote], [updateNote], [deleteNote]),
    - [App.js]               (the handlers of the coordinator).

    JavaScript strings are sequences of UTF-16 code units, values are the
    JSON values plus [undefined], and asynchronous functions are
    computations in a state-and-exception monad over a world that holds
    the React state, the pending timers, a clock and the scripted
    behaviour of the network. *)

From Stdlib Require Import List ZArith NArith Lia Bool String Ascii DecimalString.
Import ListNotations.

Local Open Scope Z_scope.
Local Set Warnings "-register-all".

(* ================================================================= *)
(** ** JavaScript strings and values *)

Module Js.

(** A string is its sequence of UTF-16 code units; [length] counts them,
    as [String.prototype.length] does. *)
Definition jsstring := list N.

Definition lit (s : string) : jsstring :=
  map N_of_ascii (list_ascii_of_string s).

Definition strlen (s : jsstring) : Z := Z.of_nat (List.length s).

Definition str_eqb (a b : jsstring) : bool :=
  if list_eq_dec N.eq_dec a b then true else false.

(** The code units removed by [String.prototype.trim]: WhiteSpace and
    LineTerminator of ECMA-262. *)
Definition isWhiteSpace (c : N) : bool :=
  ((9 <=? c) && (c <=? 13) || (c =? 32) || (c =? 160) || (c =? 5760)
   || (8192 <=? c) && (c <=? 8202) || (c =? 8232) || (c =? 8233)
   || (c =? 8239) || (c =? 8287) || (c =? 12288) || (c =? 65279))%N.

Fixpoint trimStart (s : jsstring) : jsstring :=
  match s with
  | [] => []
  | c :: r => if isWhiteSpace c then trimStart r else s
  end.

Definition trimEnd (s : jsstring) : jsstring := rev (trimStart (rev s)).

Definition trim (s : jsstring) : jsstring := trimEnd (trimStart s).

(** First and last code unit are not white space (vacuous on [""]). *)
Definition startsWithSpace (s : jsstring) : bool :=
  match s with [] => false | c :: _ => isWhiteSpace c end.

Definition endsWithSpace (s : jsstring) : bool := startsWithSpace (rev s).

Definition allSpace (s : jsstring) : bool := forallb isWhiteSpace s.

(** JSON values and [undefined].  Numbers are the integers: the code
    below only tests a number for being zero, compares it and prints it. *)
Inductive value : Type :=
| VUndefined
| VNull
| VBool (b : bool)
| VNum (n : Z)
| VStr (s : jsstring)
| VArr (xs : list value)
| VObj (fields : list (jsstring * value)).

(** ToBoolean. *)
Definition truthy (v : value) : bool :=
  match v with
  | VUndefined | VNull => false
  | VBool b => b
  | VNum n => negb (n =? 0)
  | VStr s => negb (Nat.eqb (List.length s) 0)
  | VArr _ | VObj _ => true
  end.

(** [a || b] and [a && b] on values, [a ?? b]. *)
Definition or_ (a b : value) : value := if truthy a then a else b.
Definition and_ (a b : value) : value := if truthy a then b else a.
Definition nullish (a b : value) : value :=
  match a with VUndefined | VNull => b | _ => a end.

(** A destructuring default [{ x = d }] applies to [undefined] only. *)
Definition default (a d : value) : value :=
  match a with VUndefined => d | _ => a end.

Fixpoint lookup (k : jsstring) (fields : list (jsstring * value)) : value :=
  match fields with
  | [] => VUndefined
  | (k', v) :: r => if str_eqb k k' then v else lookup k r
  end.

(** Property read [v.k] for the own data properties of a parsed object;
    on the other values the names read by this program are absent.
    Reading a property of [null] or [undefined] throws a TypeError; the
    program guards its reads ([data && ...], [err && ...],
    [res.ok && res.data]) except those of the entries of the collection,
    which the statements below that read them take to be [readable]. *)
Definition prop (v : value) (k : string) : value :=
  match v with
  | VObj fields => lookup (lit k) fields
  | _ => VUndefined
  end.

Definition readable (v : value) : bool :=
  match v with VUndefined | VNull => false | _ => true end.

(** [a === b].  Arrays and objects compare by identity, which this
    embedding does not track: two of them are never identical here. *)
Definition strict_eq (a b : value) : bool :=
  match a, b with
  | VUndefined, VUndefined => true
  | VNull, VNull => true
  | VBool x, VBool y => Bool.eqb x y
  | VNum x, VNum y => x =? y
  | VStr x, VStr y => str_eqb x y
  | _, _ => false
  end.

Definition isArray (v : value) : bool :=
  match v with VArr _ => true | _ => false end.

Definition decimal (n : Z) : jsstring :=
  lit (NilZero.string_of_int (Z.to_int n)).

(** [String(v)]. *)
Fixpoint String_ (v : value) : jsstring :=
  match v with
  | VUndefined => lit "undefined"
  | VNull => lit "null"
  | VBool true => lit "true"
  | VBool false => lit "false"
  | VNum n => decimal n
  | VStr s => s
  | VArr xs =>
      let el x := match x with
                  | VUndefined | VNull => []
                  | _ => String_ x
                  end in
      (fix join (l : list value) : jsstring :=
         match l with
         | [] => []
         | [x] => el x
         | x :: r => el x ++ lit "," ++ join r
         end) xs
  | VObj _ => lit "[object Object]"
  end.

End Js.

Import Js.

(* ================================================================= *)
(** ** utils/validation.js *)

Module Validation.

Definition MAX_TITLE : Z := 200.
Definition MAX_CONTENT : Z := 10000.

(** The object [{ title, content }]; an absent property reads
    [VUndefined]. *)
Record NoteInput : Type := mkInput { title : value; content : value }.

Definition sanitizeNoteInput (x : NoteInput) : NoteInput :=
  let title := default (title x) (VStr (lit "")) in
  let content := default (content x) (VStr (lit "")) in
  let t := trim (String_ (nullish title (VStr (lit "")))) in
  let c := trim (String_ (nullish content (VStr (lit "")))) in
  {| title := VStr t; content := VStr c |}.

(** The [errors] object: a field is [None] when the key is absent. *)
Record Errors : Type := mkErrors
  { err_title : option jsstring; err_content : option jsstring }.

Definition no_errors : Errors :=
  {| err_title := None; err_content := None |}.

Definition set_title (e : Errors) (m : jsstring) : Errors :=
  {| err_title := Some m; err_content := err_content e |}.

Definition set_content (e : Errors) (m : jsstring) : Errors :=
  {| err_title := err_title e; err_content := Some m |}.

(** [Object.keys(errors).length]. *)
Definition keys_length (e : Errors) : Z :=
  (match err_title e with Some _ => 1 | None => 0 end)
  + (match err_content e with Some _ => 1 | None => 0 end).

Record Validated : Type := mkValidated { valid : bool; errors : Errors }.

Definition validateNote (x : NoteInput) : Validated :=
  let title := default (title x) (VStr (lit "")) in
  let content := default (content x) (VStr (lit "")) in
  let errors := no_errors in
  let t := String_ (nullish title (VStr (lit ""))) in
  let c := String_ (nullish content (VStr (lit ""))) in
  let errors :=
    if strlen t =? 0 then set_title errors (lit "Title is required.")
    else errors in
  let errors :=
    if strlen t >? MAX_TITLE
    then set_title errors
           (lit "Title must be at most " ++ decimal MAX_TITLE ++ lit " characters.")
    else errors in
  let errors :=
    if strlen c >? MAX_CONTENT
    then set_content errors
           (lit "Content must be at most " ++ decimal MAX_CONTENT ++ lit " characters.")
    else errors in
  {| valid := keys_length errors =? 0; errors := errors |}.

(** [errors.k] as a value. *)
Definition read (m : option jsstring) : value :=
  match m with Some s => VStr s | None => VUndefined end.

End Validation.

Import Validation.

(* ================================================================= *)
(** ** The world and the monad of asynchronous functions *)

Module Async.

(** What [fetch] is handed: the URL and the [opts] object. *)
Inductive wire : Type :=
| Verbatim (s : jsstring)        (* a string body, sent as it is *)
| Stringified (v : value).       (* JSON.stringify(v) *)

Record Request : Type := mkRequest
  { req_url : jsstring;
    req_method : jsstring;
    req_headers : list (jsstring * jsstring);
    req_body : option wire }.

(** A [Response]: its status, what [res.text()] resolves to ([None] when
    it rejects) and what [JSON.parse] makes of that text ([None] when it
    throws). *)
Record Response : Type := mkResponse
  { res_status : Z;
    res_text : option jsstring;
    res_json : option value }.

(** [res.ok]: the status is in the range 200-299. *)
Definition res_ok (r : Response) : bool :=
  (200 <=? res_status r) && (res_status r <=? 299).

Inductive settled : Type :=
| Fulfilled (r : Response)
| Rejected (err : value).

(** How the network treats one request: the promise of [fetch] settles
    [latency] milliseconds after the call, unless it is aborted before. *)
Record network : Type := mkNetwork { latency : Z; outcome : settled }.

Record Platform : Type := mkPlatform
  { clock : Z;                          (* Date.now() *)
    timers : list (Z * Z);              (* pending timers: id, due time *)
    next_timer : Z;
    protocol : jsstring;                (* window.location.protocol *)
    hostname : jsstring;                (* window.location.hostname *)
    calls : list Request;               (* requests issued, latest first *)
    backend : list Request -> network   (* the network, given the requests so far *)
  }.

(** State of [useNotesApi]. *)
Record ApiState : Type := mkApi
  { inFlight : Z; loading : bool; error : value }.

(** State of [App]. *)
Record AppState : Type := mkApp
  { notes : list value;
    selectedNoteId : value;
    selectedNote : value;
    busy : bool;
    listLoading : bool;
    listError : value;
    filter : jsstring }.

Record World : Type := mkWorld
  { plat : Platform; api : ApiState; app : AppState }.

Definition on_plat (f : Platform -> Platform) (w : World) : World :=
  {| plat := f (plat w); api := api w; app := app w |}.
Definition on_api (f : ApiState -> ApiState) (w : World) : World :=
  {| plat := plat w; api := f (api w); app := app w |}.
Definition on_app (f : AppState -> AppState) (w : World) : World :=
  {| plat := plat w; api := api w; app := f (app w) |}.

(** An asynchronous function either returns or throws. *)
Inductive completion (A : Type) : Type :=
| Done (a : A)
| Throw (e : value).
Arguments Done {A} a.
Arguments Throw {A} e.

Definition M (A : Type) : Type := World -> completion A * World.

Definition ret {A} (a : A) : M A := fun w => (Done a, w).

Definition bind {A B} (m : M A) (k : A -> M B) : M B :=
  fun w => match m w with
           | (Done a, w') => k a w'
           | (Throw e, w') => (Throw e, w')
           end.

Definition throw {A} (e : value) : M A := fun w => (Throw e, w).

(** [try { body } catch (err) { handler }]. *)
Definition try_catch {A} (body : M A) (handler : value -> M A) : M A :=
  fun w => match body w with
           | (Done a, w') => (Done a, w')
           | (Throw e, w') => handler e w'
           end.

(** [try { body } finally { cleanup }]; the cleanup blocks of this
    program neither return nor throw. *)
Definition try_finally {A} (body : M A) (cleanup : World -> World) : M A :=
  fun w => match body w with (r, w') => (r, cleanup w') end.

Definition modify (f : World -> World) : M unit := fun w => (Done tt, f w).
Definition gets {A} (f : World -> A) : M A := fun w => (Done (f w), w).

Definition when (b : bool) (m : M unit) : M unit := if b then m else ret tt.

End Async.

Import Async.

Declare Scope async_scope.
Delimit Scope async_scope with async.
Notation "x <- m ;; k" := (bind m (fun x => k))
  (at level 61, m at next level, right associativity) : async_scope.
Notation "m ;; k" := (bind m (fun _ => k))
  (at level 61, right associativity) : async_scope.

Local Open Scope async_scope.

(* ================================================================= *)
(** ** api/client.js *)

Module Client.

Definition DEFAULT_TIMEOUT_MS : Z := 10000.

(** The second argument of [apiRequest], defaults applied. *)
Record Options : Type := mkOptions
  { method : jsstring;
    headers : list (jsstring * jsstring);
    body : value;
    timeoutMs : Z }.

Definition defaults : Options :=
  {| method := lit "GET"; headers := []; body := VUndefined;
     timeoutMs := DEFAULT_TIMEOUT_MS |}.

Record Outcome : Type := mkOutcome
  { ok : bool; status : Z; error : value; data : value }.

(** [setTimeout(cb, ms)]: a new pending timer, due [ms] from now. *)
Definition setTimeout (ms : Z) : M Z :=
  fun w =>
    let p := plat w in
    let id := next_timer p in
    (Done id,
     on_plat (fun p => {| clock := clock p;
                          timers := (id, clock p + Z.max 0 ms) :: timers p;
                          next_timer := id + 1;
                          protocol := protocol p; hostname := hostname p;
                          calls := calls p; backend := backend p |}) w).

Definition remove_timer (id : Z) (p : Platform) : Platform :=
  {| clock := clock p;
     timers := List.filter (fun t => negb (fst t =? id)) (timers p);
     next_timer := next_timer p;
     protocol := protocol p; hostname := hostname p;
     calls := calls p; backend := backend p |}.

Definition clearTimeout (id : Z) : M unit :=
  modify (on_plat (remove_timer id)).

Definition due_of (id : Z) (p : Platform) : option Z :=
  match List.find (fun t => fst t =? id) (timers p) with
  | Some t => Some (snd t)
  | None => None
  end.

Definition AbortError : value :=
  VObj [(lit "name", VStr (lit "AbortError"))].

(** [await fetch(url, opts)] where [opts.signal] belongs to the
    controller that timer [id] aborts.  The request is issued; the
    promise settles as the network decides if that happens no later than
    the timer is due; otherwise the timer fires first, is no longer
    pending, and the abort rejects the promise with an [AbortError]. *)
Definition fetch (req : Request) (id : Z) : M Response :=
  fun w =>
    let p := plat w in
    let log := req :: calls p in
    let net := backend p log in
    let arrival := clock p + Z.max 0 (latency net) in
    let at_ (t : Z) (p : Platform) : Platform :=
      {| clock := t; timers := timers p; next_timer := next_timer p;
         protocol := protocol p; hostname := hostname p;
         calls := log; backend := backend p |} in
    let in_time := match due_of id p with
                   | Some due => arrival <=? due
                   | None => true
                   end in
    if in_time then
      match outcome net with
      | Fulfilled r => (Done r, on_plat (at_ arrival) w)
      | Rejected err => (Throw err, on_plat (at_ arrival) w)
      end
    else
      let due := match due_of id p with Some due => due | None => arrival end in
      (Throw AbortError, on_plat (fun p => remove_timer id (at_ due p)) w).

(** [{ ...a, ...b }] on string-valued objects. *)
Fixpoint assign1 (a : list (jsstring * jsstring)) (k v : jsstring) :=
  match a with
  | [] => [(k, v)]
  | (k', v') :: r => if str_eqb k k' then (k, v) :: r else (k', v') :: assign1 r k v
  end.

Definition spread (a b : list (jsstring * jsstring)) :=
  fold_left (fun acc kv => assign1 acc (fst kv) (snd kv)) b a.

Definition startsWithSlash (path : jsstring) : bool :=
  match path with c :: _ => (c =? 47)%N | [] => false end.

(** The [data] read off a response: the text, parsed when it parses. *)
Definition read_body (res : Response) : value :=
  let text := match res_text res with Some t => t | None => lit "" end in
  if truthy (VStr text) then
    match res_json res with
    | Some v => v
    | None => VStr text
    end
  else VNull.

Definition failure_message (res : Response) (data : value) : value :=
  or_ (and_ data
         (or_ (or_ (prop data "detail") (prop data "message")) (prop data "error")))
      (VStr (lit "Request failed with status " ++ decimal (res_status res))).

(** Lines 16-32: the URL and the [opts] object. *)
Definition build_request (path : jsstring) (o : Options) (p : Platform) : Request :=
  let base := protocol p ++ lit "//" ++ hostname p ++ lit ":3001" in
  let url := base ++ (if startsWithSlash path then path else lit "/" ++ path) in
  let finalHeaders := spread [(lit "Content-Type", lit "application/json")] (headers o) in
  let opts_body :=
    match body o with
    | VUndefined | VNull => None
    | VStr s => Some (Verbatim s)
    | v => Some (Stringified v)
    end in
  {| req_url := url; req_method := method o;
     req_headers := finalHeaders; req_body := opts_body |}.

(** Lines 38-56: what the [try] block returns once [fetch] has resolved.
    The read of the body, [await res.text()], is taken to settle at
    once: the time it takes, which no timer bounds since the timer is
    cleared before it, is not part of this model, whose clock after a
    call that got its response is the time at which [fetch] resolved. *)
Definition on_response (res : Response) : Outcome :=
  let data := read_body res in
  if negb (res_ok res) then
    let message := failure_message res data in
    {| ok := false; status := res_status res; error := message; data := VNull |}
  else
    {| ok := true; status := res_status res; error := VNull; data := data |}.

(** Lines 59-61: what the [catch] block returns. *)
Definition on_error (err : value) : Outcome :=
  let isAbort := and_ err (VBool (strict_eq (prop err "name") (VStr (lit "AbortError")))) in
  let message := if truthy isAbort then lit "Request timed out" else lit "Network error" in
  {| ok := false; status := 0; error := VStr message; data := VNull |}.

Definition apiRequest (path : jsstring) (o : Options) : M Outcome :=
  id <- setTimeout (timeoutMs o) ;;
  opts <- gets (fun w => build_request path o (plat w)) ;;
  try_catch
    (res <- fetch opts id ;;
     clearTimeout id ;;
     ret (on_response res))
    (fun err =>
       clearTimeout id ;;
       ret (on_error err)).

(** The outcome of a request that timed out. *)
Definition timed_out : Outcome :=
  {| ok := false; status := 0; error := VStr (lit "Request timed out"); data := VNull |}.

(** The RequestOutcome invariant in the words of the data model: on
    success the error is absent; on failure the data is absent and the
    error is a message, a string that is not empty. *)
Definition is_message (v : value) : Prop :=
  exists s, v = VStr s /\ s <> [].

Definition RequestOutcome_invariant (o : Outcome) : Prop :=
  if ok o then error o = VNull
  else data o = VNull /\ is_message (error o).

(** The error fields of a body are text: each of detail, message and
    error is absent or a string. *)
Definition textual (v : value) : bool :=
  match v with VUndefined | VStr _ => true | _ => false end.

Definition textual_errors (data : value) : bool :=
  textual (prop data "detail") && textual (prop data "message")
  && textual (prop data "error").

End Client.

Import Client.

(* ================================================================= *)
(** ** hooks/useNotesApi.js *)

Module Hook.

Definition setInFlight (n : Z) : World -> World :=
  on_api (fun a => {| inFlight := n; loading := loading a; Async.error := Async.error a |}).
Definition setLoading (b : bool) : World -> World :=
  on_api (fun a => {| inFlight := inFlight a; loading := b; Async.error := Async.error a |}).
Definition setError (v : value) : World -> World :=
  on_api (fun a => {| inFlight := inFlight a; loading := loading a; Async.error := v |}).

(** [useState(false)], [useState(null)], [useRef(0)]. *)
Definition useNotesApi_init : ApiState :=
  {| inFlight := 0; loading := false; Async.error := VNull |}.

(** The two statements before the [try] of [withLoading]. *)
Definition withLoading_enter (w : World) : World :=
  let w := setInFlight (inFlight (api w) + 1) w in
  setLoading true w.

(** Its [finally] block. *)
Definition withLoading_finally (w : World) : World :=
  let w := setInFlight (inFlight (api w) - 1) w in
  if inFlight (api w) <=? 0 then
    let w := setInFlight 0 w in
    setLoading false w
  else w.

Definition withLoading (fn : M Outcome) : M Outcome :=
  modify withLoading_enter ;;
  try_finally
    (res <- fn ;;
     when (negb (ok res))
          (modify (setError (or_ (error res) (VStr (lit "Unknown error"))))) ;;
     ret res)
    withLoading_finally.

Definition clearError : M unit := modify (setError VNull).

Definition isUnreserved (c : N) : bool :=
  ((65 <=? c) && (c <=? 90) || (97 <=? c) && (c <=? 122) || (48 <=? c) && (c <=? 57)
   || (c =? 45) || (c =? 95) || (c =? 46) || (c =? 33) || (c =? 126)
   || (c =? 42) || (c =? 39) || (c =? 40) || (c =? 41))%N.

Definition hexDigit (n : N) : N := (if n <? 10 then 48 + n else 55 + n)%N.

Definition percent (b : N) : jsstring := [37; hexDigit (b / 16); hexDigit (b mod 16)]%N.

Definition utf8 (cp : N) : list N :=
  (if cp <? 128 then [cp]
   else if cp <? 2048 then [192 + cp / 64; 128 + cp mod 64]
   else if cp <? 65536 then [224 + cp / 4096; 128 + (cp / 64) mod 64; 128 + cp mod 64]
   else [240 + cp / 262144; 128 + (cp / 4096) mod 64; 128 + (cp / 64) mod 64;
         128 + cp mod 64])%N.

Definition escape (cp : N) : jsstring := flat_map percent (utf8 cp).

Definition isLead (c : N) : bool := ((55296 <=? c) && (c <=? 56319))%N.
Definition isTrail (c : N) : bool := ((56320 <=? c) && (c <=? 57343))%N.

(** [encodeURIComponent(s)]; [None] is the [URIError] raised on a lone
    surrogate. *)
Fixpoint encodeURIComponent (s : jsstring) : option jsstring :=
  match s with
  | [] => Some []
  | c :: r =>
      if isUnreserved c then option_map (cons c) (encodeURIComponent r)
      else if isTrail c then None
      else if isLead c then
        match r with
        | d :: r' =>
            if isTrail d
            then option_map (List.app (escape ((c - 55296) * 1024 + (d - 56320) + 65536)%N))
                            (encodeURIComponent r')
            else None
        | [] => None
        end
      else option_map (List.app (escape c)) (encodeURIComponent r)
  end.

Definition URIError : value := VObj [(lit "name", VStr (lit "URIError"))].

Definition safeId_of (id : value) : M jsstring :=
  match encodeURIComponent (String_ id) with
  | Some e => ret e
  | None => throw URIError
  end.

Definition with_method (m : string) : Options :=
  {| method := lit m; headers := headers defaults; body := body defaults;
     timeoutMs := timeoutMs defaults |}.

Definition with_method_body (m : string) (b : value) : Options :=
  {| method := lit m; headers := headers defaults; body := b;
     timeoutMs := timeoutMs defaults |}.

(** What the function awaited in [listNotes] returns, [res] being the
    outcome of its request. *)
Definition listNotes_result (res : Outcome) : Outcome :=
  if negb (ok res) then res
  else
    let data := if isArray (data res) then data res else VArr [] in
    {| ok := true; status := status res; error := VNull; data := data |}.

Definition listNotes : M Outcome :=
  withLoading
    (res <- apiRequest (lit "/notes") (with_method "GET") ;;
     ret (listNotes_result res)).

Definition getNote (id : value) : M Outcome :=
  safeId <- safeId_of id ;;
  withLoading
    (res <- apiRequest (lit "/notes/" ++ safeId) (with_method "GET") ;;
     ret res).

(** The object [{ title: t, content: c }] handed on as request body. *)
Definition payload_value (x : NoteInput) : value :=
  VObj [(lit "title", title x); (lit "content", content x)].

Definition validation_failure (errors : Errors) : Outcome :=
  {| ok := false; status := 400;
     error := or_ (or_ (read (err_title errors)) (read (err_content errors)))
                  (VStr (lit "Validation failed"));
     data := VNull |}.

Definition createNote (x : NoteInput) : M Outcome :=
  let payload := sanitizeNoteInput {| title := title x; content := content x |} in
  let v := validateNote payload in
  if negb (valid v) then ret (validation_failure (errors v))
  else
    withLoading
      (res <- apiRequest (lit "/notes") (with_method_body "POST" (payload_value payload)) ;;
       ret res).

Definition updateNote (id : value) (x : NoteInput) : M Outcome :=
  let payload := sanitizeNoteInput {| title := title x; content := content x |} in
  let v := validateNote payload in
  if negb (valid v) then ret (validation_failure (errors v))
  else
    safeId <- safeId_of id ;;
    withLoading
      (res <- apiRequest (lit "/notes/" ++ safeId)
                         (with_method_body "PUT" (payload_value payload)) ;;
       ret res).

Definition deleteNote (id : value) : M Outcome :=
  safeId <- safeId_of id ;;
  withLoading
    (res <- apiRequest (lit "/notes/" ++ safeId) (with_method "DELETE") ;;
     ret res).

(** The operations the hook returns, as one interface. *)
Inductive operation : Type :=
| ListNotes
| GetNote (id : value)
| CreateNote (x : NoteInput)
| UpdateNote (id : value) (x : NoteInput)
| DeleteNote (id : value).

Definition perform (op : operation) : M Outcome :=
  match op with
  | ListNotes => listNotes
  | GetNote id => getNote id
  | CreateNote x => createNote x
  | UpdateNote id x => updateNote id x
  | DeleteNote id => deleteNote id
  end.

(** Steps of overlapping calls of [withLoading]: one call enters, or one
    of the awaited functions settles (returns or throws) and the rest of
    that call runs. *)
Inductive event : Type :=
| Started
| Settled (r : completion Outcome).

Definition withLoading_settle (r : completion Outcome) (w : World) : World :=
  let w := match r with
           | Done res =>
               if negb (ok res)
               then setError (or_ (error res) (VStr (lit "Unknown error"))) w
               else w
           | Throw _ => w
           end in
  withLoading_finally w.

Definition step (w : World) (e : event) : World :=
  match e with
  | Started => withLoading_enter w
  | Settled r => withLoading_settle r w
  end.

Definition run_events (trace : list event) (w : World) : World :=
  fold_left step trace w.



End Hook.

Import Hook.

(* ================================================================= *)
(** ** App.js: the coordinator *)

Module Coordinator.

Definition setNotes (f : list value -> list value) : World -> World :=
  on_app (fun a => {| notes := f (notes a); selectedNoteId := selectedNoteId a;
                      selectedNote := selectedNote a; busy := busy a;
                      listLoading := listLoading a; listError := listError a;
                      filter := filter a |}).
Definition setSelectedNoteId (v : value) : World -> World :=
  on_app (fun a => {| notes := notes a; selectedNoteId := v;
                      selectedNote := selectedNote a; busy := busy a;
                      listLoading := listLoading a; listError := listError a;
                      filter := filter a |}).
Definition setSelectedNote (v : value) : World -> World :=
  on_app (fun a => {| notes := notes a; selectedNoteId := selectedNoteId a;
                      selectedNote := v; busy := busy a;
                      listLoading := listLoading a; listError := listError a;
                      filter := filter a |}).
Definition setBusy (b : bool) : World -> World :=
  on_app (fun a => {| notes := notes a; selectedNoteId := selectedNoteId a;
                      selectedNote := selectedNote a; busy := b;
                      listLoading := listLoading a; listError := listError a;
                      filter := filter a |}).
Definition setListLoading (b : bool) : World -> World :=
  on_app (fun a => {| notes := notes a; selectedNoteId := selectedNoteId a;
                      selectedNote := selectedNote a; busy := busy a;
                      listLoading := b; listError := listError a;
                      filter := filter a |}).
Definition setListError (v : value) : World -> World :=
  on_app (fun a => {| notes := notes a; selectedNoteId := selectedNoteId a;
                      selectedNote := selectedNote a; busy := busy a;
                      listLoading := listLoading a; listError := v;
                      filter := filter a |}).

(** The [useState] initial values of [App]. *)
Definition App_init : AppState :=
  {| notes := []; selectedNoteId := VNull; selectedNote := VNull; busy := false;
     listLoading := true; listError := VNull; filter := lit "" |}.

(** The elements of an array value, as [setNotes] stores them. *)
Definition elements (v : value) : list value :=
  match v with VArr xs => xs | _ => [] end.

(** [n.id !== id]. *)
Definition idIsNot (id : value) (n : value) : bool :=
  negb (strict_eq (prop n "id") id).

(** The effect that loads the list on mount (the component stays
    mounted). *)
Definition loadNotesEffect : M unit :=
  modify (setListLoading true) ;;
  modify (setListError VNull) ;;
  selected <- gets (fun w => selectedNoteId (app w)) ;;
  res <- listNotes ;;
  (if ok res then
     modify (setNotes (fun _ => elements (or_ (data res) (VArr [])))) ;;
     when (negb (truthy selected)
           && truthy (data res)
           && (0 <? Z.of_nat (List.length (elements (data res)))))
          (modify (setSelectedNoteId (prop (hd VUndefined (elements (data res))) "id")))
   else
     modify (setListError (or_ (error res) (VStr (lit "Failed to load notes"))))) ;;
  modify (setListLoading false).

(** The effect that loads the selected note when the id changes.
    [mounted] is the value of the variable of that name when [getNote]
    settles: the cleanup of the effect, which runs when the selected id
    changes or the component goes, has set it to [false] by then, or has
    not. *)
Definition loadSelectedEffect (mounted : bool) : M unit :=
  selected <- gets (fun w => selectedNoteId (app w)) ;;
  if negb (truthy selected) then modify (setSelectedNote VNull)
  else
    modify (setBusy true) ;;
    res <- getNote selected ;;
    if negb mounted then ret tt
    else
      (if ok res then modify (setSelectedNote (data res))
       else modify (setSelectedNote VNull)) ;;
      modify (setBusy false).

Definition handleSelectNote (id : value) : M unit :=
  modify (setSelectedNoteId id).

Definition tempId_at (now : Z) : value := VStr (lit "temp-" ++ decimal now).

Definition optimistic_note (tempId : value) : value :=
  VObj [(lit "id", tempId); (lit "title", VStr (lit "Untitled note"));
        (lit "content", VStr (lit ""))].

(** [handleAddNote] up to its [await]: the optimistic step. *)
Definition handleAddNote_begin : M value :=
  modify (setBusy true) ;;
  now <- gets (fun w => clock (plat w)) ;;
  let tempId := tempId_at now in
  let optimistic := optimistic_note tempId in
  modify (setNotes (fun prev => optimistic :: prev)) ;;
  modify (setSelectedNoteId tempId) ;;
  modify (setSelectedNote optimistic) ;;
  ret tempId.

(** [handleAddNote] after its [await], [res] being what [createNote]
    returned.  The focus move only touches the page. *)
Definition handleAddNote_resume (tempId : value) (res : Outcome) : M unit :=
  (if truthy (and_ (VBool (ok res)) (data res)) then
     modify (setNotes (fun prev =>
                         let withoutTemp := List.filter (idIsNot tempId) prev in
                         data res :: withoutTemp)) ;;
     modify (setSelectedNoteId (prop (data res) "id")) ;;
     modify (setSelectedNote (data res))
   else
     modify (setNotes (fun prev => List.filter (idIsNot tempId) prev))) ;;
  modify (setBusy false).

Definition handleAddNote : M unit :=
  tempId <- handleAddNote_begin ;;
  let optimistic := optimistic_note tempId in
  res <- createNote {| title := prop optimistic "title";
                       content := prop optimistic "content" |} ;;
  handleAddNote_resume tempId res.

(** [handleSaveNote] after its [await]. *)
Definition handleSaveNote_resume (selected : value) (res : Outcome) : M unit :=
  when (truthy (and_ (VBool (ok res)) (data res)))
       (modify (setSelectedNote (data res)) ;;
        modify (setNotes (fun prev =>
                            map (fun n => if strict_eq (prop n "id") selected
                                          then data res else n) prev))) ;;
  modify (setBusy false).

Definition handleSaveNote (payload : NoteInput) : M unit :=
  selected <- gets (fun w => selectedNoteId (app w)) ;;
  if negb (truthy selected) then ret tt
  else
    modify (setBusy true) ;;
    res <- updateNote selected payload ;;
    handleSaveNote_resume selected res.

Definition handleDeleteNote : M unit :=
  selected <- gets (fun w => selectedNoteId (app w)) ;;
  if negb (truthy selected) then ret tt
  else
    let toDelete := selected in
    modify (setBusy true) ;;
    modify (setNotes (fun prev => List.filter (idIsNot toDelete) prev)) ;;
    modify (setSelectedNoteId VNull) ;;
    modify (setSelectedNote VNull) ;;
    res <- deleteNote toDelete ;;
    (if negb (ok res) then
       listRes <- listNotes ;;
       when (ok listRes)
            (modify (setNotes (fun _ => elements (or_ (data listRes) (VArr [])))))
     else ret tt) ;;
    modify (setBusy false).

(** [apiError || listError], the error the page shows. *)
Definition appError (w : World) : value :=
  or_ (Async.error (api w)) (listError (app w)).

Definition clearAppError : M unit :=
  clearError ;;
  modify (setListError VNull).

(** The busy flag handed to the sidebar. *)
Definition sidebarBusy (w : World) : bool :=
  busy (app w) || listLoading (app w) || loading (api w).

End Coordinator.

Import Coordinator.

(* ================================================================= *)
(** ** Sample worlds *)

Module Sample.

Definition platform (net : list Request -> network) : Platform :=
  {| clock := 1700000000000; timers := []; next_timer := 1;
     protocol := lit "http:"; hostname := lit "localhost";
     calls := []; backend := net |}.

Definition world (net : list Request -> network) : World :=
  {| plat := platform net; api := useNotesApi_init; app := App_init |}.

(** A network that is down: every [fetch] rejects after 5 ms. *)
Definition offline (_ : list Request) : network :=
  {| latency := 5;
     outcome := Rejected (VObj [(lit "name", VStr (lit "TypeError"))]) |}.

(** A network that answers every request after [ms] milliseconds. *)
Definition answering (ms : Z) (r : Response) (_ : list Request) : network :=
  {| latency := ms; outcome := Fulfilled r |}.

(** A string literal of JSON text: the characters between two quotes. *)
Definition quoted (s : string) : jsstring := [34%N] ++ lit s ++ [34%N].

(** Status 422 whose body is an object with one field, detail, holding a
    list of one object with the field msg: the shape of a rejected
    request body. *)
Definition unprocessable : Response :=
  {| res_status := 422;
     res_text := Some (lit "{" ++ quoted "detail" ++ lit ":[{" ++ quoted "msg"
                       ++ lit ":" ++ quoted "field required" ++ lit "}]}");
     res_json := Some (VObj [(lit "detail",
                   VArr [VObj [(lit "msg", VStr (lit "field required"))]])]) |}.

(** Status 200 with a body that is no JSON. *)
Definition plainText : Response :=
  {| res_status := 200; res_text := Some (lit "pong"); res_json := None |}.

(** Status 500 with no body. *)
Definition serverError : Response :=
  {| res_status := 500; res_text := Some (lit ""); res_json := None |}.

(** Status 200 whose body is an object that wraps an empty list under
    the key items: not an array. *)
Definition wrappedList : Response :=
  {| res_status := 200;
     res_text := Some (lit "{" ++ quoted "items" ++ lit ":[]}");
     res_json := Some (VObj [(lit "items", VArr [])]) |}.

(** Status 200 whose body is the note 7, titled Plan. *)
Definition note7 : value :=
  VObj [(lit "id", VNum 7); (lit "title", VStr (lit "Plan"));
        (lit "content", VStr (lit "buy milk"))].

Definition savedNote : Response :=
  {| res_status := 200;
     res_text := Some (lit "{" ++ quoted "id" ++ lit ":7," ++ quoted "title" ++ lit ":"
                       ++ quoted "Plan" ++ lit "," ++ quoted "content" ++ lit ":"
                       ++ quoted "buy milk" ++ lit "}");
     res_json := Some note7 |}.

(** A world in which note 7, still titled Draft, is listed and selected. *)
Definition draft7 : value :=
  VObj [(lit "id", VNum 7); (lit "title", VStr (lit "Draft"));
        (lit "content", VStr (lit ""))].

Definition editing (net : list Request -> network) : World :=
  {| plat := platform net; api := useNotesApi_init;
     app := {| notes := [draft7]; selectedNoteId := VNum 7; selectedNote := draft7;
               busy := false; listLoading := false; listError := VNull;
               filter := lit "" |} |}.

End Sample.

(* ================================================================= *)
(** ** Words of the specification *)

Module Spec.

(** The message of the first failing field: the title's, else the
    content's. *)
Definition first_failing_message (e : Errors) : option jsstring :=
  match err_title e with
  | Some m => Some m
  | None => err_content e
  end.

(** A create or update whose input does not validate is rejected before
    any request. *)
Definition rejected_locally (op : operation) : bool :=
  match op with
  | CreateNote x | UpdateNote _ x => negb (valid (validateNote (sanitizeNoteInput x)))
  | _ => false
  end.

(** The id an operation puts in its path, when it gets to build one. *)
Definition path_id (op : operation) : option value :=
  match op with
  | GetNote id | DeleteNote id => Some id
  | UpdateNote id x => if rejected_locally (UpdateNote id x) then None else Some id
  | _ => None
  end.

(** The id has no lone surrogate: [encodeURIComponent] accepts it. *)
Definition encodable (op : operation) : bool :=
  match path_id op with
  | Some id => match encodeURIComponent (String_ id) with Some _ => true | None => false end
  | None => true
  end.

(** The world once an [apiRequest] has settled at time [t]: the request
    is logged, the clock stands at [t] and the timer of the call is no
    longer pending. *)
Definition request_done (path : jsstring) (o : Options) (t : Z) (w : World) : World :=
  on_plat (fun p =>
             {| clock := t;
                timers := List.filter (fun x => negb (fst x =? next_timer p)) (timers p);
                next_timer := next_timer p + 1;
                protocol := protocol p; hostname := hostname p;
                calls := build_request path o p :: calls p;
                backend := backend p |}) w.

(** How the network treats the request that [apiRequest path o] issues
    from world [w]. *)
Definition network_of (path : jsstring) (o : Options) (w : World) : network :=
  backend (plat w) (build_request path o (plat w) :: calls (plat w)).

(** The flag follows the counter: the counter is not negative and the
    flag is up exactly when the counter is positive. *)
Definition coherent (a : ApiState) : Prop :=
  0 <= inFlight a /\ (loading a = true <-> 0 < inFlight a).

End Spec.

Import Spec.

(* ================================================================= *)
(** ** components/NoteEditor.js *)

Module Editor.

(** The [useState] cells of [NoteEditor]. *)
Record EditorState : Type := mkEditor
  { title : value;
    content : value;
    errors : Errors;
    saving : bool;
    deleting : bool }.

(** [useState(note?.title || '')] and the other initial values. *)
Definition init (note : value) : EditorState :=
  {| title := or_ (prop note "title") (VStr (lit ""));
     content := or_ (prop note "content") (VStr (lit ""));
     errors := no_errors; saving := false; deleting := false |}.

Definition setTitle (v : value) (ed : EditorState) : EditorState :=
  {| title := v; content := content ed; errors := errors ed;
     saving := saving ed; deleting := deleting ed |}.
Definition setContent (v : value) (ed : EditorState) : EditorState :=
  {| title := title ed; content := v; errors := errors ed;
     saving := saving ed; deleting := deleting ed |}.
Definition setErrors (e : Errors) (ed : EditorState) : EditorState :=
  {| title := title ed; content := content ed; errors := e;
     saving := saving ed; deleting := deleting ed |}.
Definition setSaving (b : bool) (ed : EditorState) : EditorState :=
  {| title := title ed; content := content ed; errors := errors ed;
     saving := b; deleting := deleting ed |}.

(** [handleSave], the submit handler of the form; [onSave] is the prop
    of that name.  The state of the editor is threaded beside the world. *)
Definition handleSave (onSave : NoteInput -> M unit) (ed : EditorState) (w : World)
  : completion unit * (EditorState * World) :=
  let payload := sanitizeNoteInput {| Validation.title := title ed;
                                      Validation.content := content ed |} in
  let v := validateNote payload in
  if negb (valid v) then
    (Done tt, (setErrors (Validation.errors v) ed, w))
  else
    let ed := setErrors no_errors ed in
    let ed := setSaving true ed in
    match onSave payload w with
    | (Done _, w') => (Done tt, (setSaving false ed, w'))
    | (Throw e, w') => (Throw e, (ed, w'))
    end.

End Editor.

(* ================================================================= *)
(** ** App.js: the filter of the sidebar *)

Module Filter.

Section WithLowerCase.

(** [String.prototype.toLowerCase], which needs the case tables of
    Unicode, is left open. *)
Variable toLowerCase : jsstring -> jsstring.

Fixpoint startsWith (q s : jsstring) : bool :=
  match q, s with
  | [], _ => true
  | _ :: _, [] => false
  | a :: q', b :: s' => (a =? b)%N && startsWith q' s'
  end.

(** [s.includes(q)]. *)
Fixpoint includes (s q : jsstring) : bool :=
  startsWith q s || match s with
                    | [] => false
                    | _ :: r => includes r q
                    end.

Definition TypeError : value := VObj [(lit "name", VStr (lit "TypeError"))].

(** The callback of the filter: [(n.title || '').toLowerCase().includes(q)];
    a truthy title that is no string has no [toLowerCase]. *)
Definition matches (q : jsstring) (n : value) : completion bool :=
  match or_ (prop n "title") (VStr (lit "")) with
  | VStr t => Done (includes (toLowerCase t) q)
  | _ => Throw TypeError
  end.

(** [notes.filter(callback)], which stops at the first throw. *)
Fixpoint filterNotes (q : jsstring) (l : list value) : completion (list value) :=
  match l with
  | [] => Done []
  | n :: r =>
      match matches q n with
      | Throw e => Throw e
      | Done keep =>
          match filterNotes q r with
          | Throw e => Throw e
          | Done r' => Done (if keep then n :: r' else r')
          end
      end
  end.

(** The [useMemo] that computes [filteredNotes]. *)
Definition filteredNotes (w : World) : completion (list value) :=
  let q := toLowerCase (trim (filter (app w))) in
  if negb (truthy (VStr q)) then Done (notes (app w))
  else filterNotes q (notes (app w)).

End WithLowerCase.

(** A title that the filter can read: absent, falsy or a string. *)
Definition titled (n : value) : bool :=
  match or_ (prop n "title") (VStr (lit "")) with
  | VStr _ => true
  | _ => false
  end.

(** The text of such a title, [n.title || '']. *)
Definition title_text (n : value) : jsstring :=
  match or_ (prop n "title") (VStr (lit "")) with
  | VStr t => t
  | _ => lit ""
  end.

(** Lowering of the letters A to Z, as an instance to run the filter. *)
Definition asciiLower (s : jsstring) : jsstring :=
  map (fun c => if ((65 <=? c) && (c <=? 90))%N then (c + 32)%N else c) s.

End Filter.

(* ================================================================= *)
(** ** Words of the statements on the rest of the code *)

Module Props.

(** [String(v ?? '')] after the default [= ''] of the destructuring: the
    text the validation helpers read off a field. *)
Definition text_of (v : value) : jsstring :=
  String_ (nullish (default v (VStr (lit ""))) (VStr (lit ""))).

(** The value of header [k] in an object of headers. *)
Definition header (k : jsstring) (hs : list (jsstring * jsstring)) : option jsstring :=
  match List.find (fun kv => str_eqb k (fst kv)) hs with
  | Some kv => Some (snd kv)
  | None => None
  end.

(** The response to the request of [apiRequest path o] from [w] comes
    no later than the deadline. *)
Definition in_time (path : jsstring) (o : Options) (w : World) : Prop :=
  Z.max 0 (latency (network_of path o w)) <= Z.max 0 (timeoutMs o).

Definition generic_message (st : Z) : value :=
  VStr (lit "Request failed with status " ++ decimal st).

(** The first truthy of the fields detail, message and error of a
    body, if any. *)
Definition first_truthy_field (data : value) : option value :=
  if truthy (prop data "detail") then Some (prop data "detail")
  else if truthy (prop data "message") then Some (prop data "message")
  else if truthy (prop data "error") then Some (prop data "error")
  else None.

(** What holds of the outcome [res] of a request that the network
    treats as [net].  On success the error is null and the status is the
    one of the response, in 200-299.  On failure the data is null and
    the error truthy: either the status is 0 and the error one of the two
    texts of the [catch] block, or the status is the one of the response,
    outside 200-299, and the error is the first truthy error field of
    the body, else the text with the status. *)
Definition transport_invariant (net : network) (res : Outcome) : Prop :=
  if ok res then
    error res = VNull
    /\ exists r, outcome net = Fulfilled r /\ res_ok r = true
                 /\ status res = res_status r
  else
    data res = VNull /\ truthy (error res) = true
    /\ ((status res = 0
         /\ (error res = VStr (lit "Request timed out")
             \/ error res = VStr (lit "Network error")))
        \/ (exists r, outcome net = Fulfilled r /\ res_ok r = false
                      /\ status res = res_status r
                      /\ error res = match first_truthy_field (read_body r) with
                                     | Some v => v
                                     | None => generic_message (res_status r)
                                     end)).

(** The first truthy error field of the response, when there is one, is
    a string. *)
Definition error_field_is_text (net : network) : Prop :=
  forall r v, outcome net = Fulfilled r ->
              first_truthy_field (read_body r) = Some v ->
              exists s, v = VStr s.

(** The origin every request goes to. *)
Definition base (p : Platform) : jsstring :=
  protocol p ++ lit "//" ++ hostname p ++ lit ":3001".

(** Code units are below 2^16. *)
Definition wellFormedUnits (s : jsstring) : bool :=
  forallb (fun c => (c <? 65536)%N) s.

(** Characters that cannot end or split a path segment: the unreserved
    ones, the percent sign and the hexadecimal digits. *)
Definition isPathSafe (c : N) : bool :=
  (isUnreserved c || (c =? 37) || (48 <=? c) && (c <=? 57)
   || (65 <=? c) && (c <=? 70))%N.

(** The request an operation of the hook makes when it makes one. *)
Definition request_of (op : operation) (p : Platform) : option Request :=
  let plain (m : string) (path : jsstring) (b : option wire) :=
    Some {| req_url := base p ++ path; req_method := lit m;
            req_headers := [(lit "Content-Type", lit "application/json")];
            req_body := b |} in
  let item (m : string) (id : value) (b : option wire) :=
    match encodeURIComponent (String_ id) with
    | Some e => plain m (lit "/notes/" ++ e) b
    | None => None
    end in
  let sent (x : NoteInput) := Some (Stringified (payload_value (sanitizeNoteInput x))) in
  match op with
  | ListNotes => plain "GET"%string (lit "/notes") None
  | GetNote id => item "GET"%string id None
  | CreateNote x =>
      if rejected_locally op then None else plain "POST"%string (lit "/notes") (sent x)
  | UpdateNote id x =>
      if rejected_locally op then None else item "PUT"%string id (sent x)
  | DeleteNote id => item "DELETE"%string id None
  end.

(** The world in which [handleDeleteNote] awaits its request: the
    optimistic removal is done. *)
Definition delete_pending (w : World) : World :=
  setSelectedNote VNull
    (setSelectedNoteId VNull
       (setNotes (List.filter (idIsNot (selectedNoteId (app w)))) (setBusy true w))).

(** The world in which the mount effect awaits the list. *)
Definition list_pending (w : World) : World :=
  setListError VNull (setListLoading true w).

End Props.

Import Props.

(* ================================================================= *)
(** ** The model at work *)

Section Runs.

Example trim_sample : trim ([9; 32] ++ lit "a b" ++ [160; 10])%N = lit "a b".
Proof. reflexivity. Qed.

Example encode_sample : encodeURIComponent (lit "a b/c?") = Some (lit "a%20b%2Fc%3F").
Proof. reflexivity. Qed.

Example encode_lone_surrogate : encodeURIComponent [55357%N] = None.
Proof. reflexivity. Qed.

Example title_too_long :
  errors (validateNote {| title := VStr (repeat 97%N 201); content := VStr (lit "") |})
  = {| err_title := Some (lit "Title must be at most 200 characters.");
       err_content := None |}.
Proof. vm_compute. reflexivity. Qed.

Example http_error_generic :
  fst (apiRequest (lit "/notes") defaults
         (Sample.world (Sample.answering 3 Sample.serverError)))
  = Done {| ok := false; status := 500;
            error := VStr (lit "Request failed with status 500"); data := VNull |}.
Proof. reflexivity. Qed.

Example malformed_json_body :
  fst (apiRequest (lit "notes") defaults
         (Sample.world (Sample.answering 3 Sample.plainText)))
  = Done {| ok := true; status := 200; error := VNull; data := VStr (lit "pong") |}.
Proof. reflexivity. Qed.

Example network_error :
  fst (apiRequest (lit "/notes") defaults (Sample.world Sample.offline))
  = Done {| ok := false; status := 0; error := VStr (lit "Network error");
            data := VNull |}.
Proof. reflexivity. Qed.

Example request_shape :
  calls (plat (snd (getNote (VStr (lit "a b")) (Sample.world Sample.offline))))
  = [ {| req_url := lit "http://localhost:3001/notes/a%20b";
         req_method := lit "GET";
         req_headers := [(lit "Content-Type", lit "application/json")];
         req_body := None |} ].
Proof. reflexivity. Qed.

(** A create that succeeds: the placeholder gives way to the note of the
    backend, which is selected. *)
Example create_success :
  let w' := snd (handleAddNote (Sample.world (Sample.answering 25 Sample.savedNote))) in
  notes (app w') = [Sample.note7]
  /\ selectedNoteId (app w') = VNum 7
  /\ selectedNote (app w') = Sample.note7
  /\ busy (app w') = false /\ loading (api w') = false.
Proof. repeat split. Qed.

(** A delete while the network is down: the optimistic removal stays,
    the reload fails too, the selection is cleared. *)
Example delete_offline :
  let w' := snd (handleDeleteNote (Sample.editing Sample.offline)) in
  notes (app w') = []
  /\ selectedNoteId (app w') = VNull /\ selectedNote (app w') = VNull
  /\ List.length (calls (plat w')) = 2%nat
  /\ appError w' = VStr (lit "Network error").
Proof. repeat split. Qed.

(** Two overlapping calls: the flag is up after each step until the
    second settlement. *)
Example overlap_no_flicker :
  let w0 := Sample.world Sample.offline in
  map (fun tr => loading (api (run_events tr w0)))
      [ [Started];
        [Started; Started];
        [Started; Started; Settled (Done timed_out)];
        [Started; Started; Settled (Done timed_out); Settled (Throw VNull)] ]
  = [true; true; true; false].
Proof. reflexivity. Qed.

End Runs.

(* ================================================================= *)
(** ** Facts on strings *)

Lemma or_truthy (a b : value) : truthy a = true -> or_ a b = a.
Proof. unfold or_. now intros ->. Qed.

Lemma or_falsy (a b : value) : truthy a = false -> or_ a b = b.
Proof. unfold or_. now intros ->. Qed.

Section Trim.

Lemma trimStart_length (s : jsstring) : strlen (trimStart s) <= strlen s.
Proof.
  unfold strlen. induction s as [|c r IH]; simpl; [lia|].
  destruct (isWhiteSpace c); simpl; lia.
Qed.

Lemma trimStart_head (s : jsstring) : startsWithSpace (trimStart s) = false.
Proof.
  induction s as [|c r IH]; simpl; [reflexivity|].
  destruct (isWhiteSpace c) eqn:E; [exact IH | simpl; exact E].
Qed.

Lemma trimStart_fixed (s : jsstring) :
  startsWithSpace s = false -> trimStart s = s.
Proof.
  destruct s as [|c r]; simpl; [reflexivity|].
  intros ->. reflexivity.
Qed.

Lemma trimStart_idem (s : jsstring) : trimStart (trimStart s) = trimStart s.
Proof. apply trimStart_fixed, trimStart_head. Qed.

(** A string that ends in a character that is not white space keeps it. *)
Lemma trimStart_snoc (s : jsstring) (c : N) :
  isWhiteSpace c = false -> trimStart (s ++ [c]) = trimStart s ++ [c].
Proof.
  intros Hc. induction s as [|d r IH]; simpl.
  - now rewrite Hc.
  - destruct (isWhiteSpace d); [exact IH | reflexivity].
Qed.

Lemma trimEnd_length (s : jsstring) : strlen (trimEnd s) <= strlen s.
Proof.
  unfold trimEnd. pose proof (trimStart_length (rev s)) as H.
  unfold strlen in *. rewrite length_rev in *. exact H.
Qed.

Lemma trimEnd_tail (s : jsstring) : endsWithSpace (trimEnd s) = false.
Proof.
  unfold endsWithSpace, trimEnd. rewrite rev_involutive. apply trimStart_head.
Qed.

Lemma trimEnd_idem (s : jsstring) : trimEnd (trimEnd s) = trimEnd s.
Proof.
  unfold trimEnd. now rewrite rev_involutive, trimStart_idem.
Qed.

(** Trimming the end leaves a first character that is not white space
    in place. *)
Lemma trimEnd_cons (c : N) (r : jsstring) :
  isWhiteSpace c = false -> trimEnd (c :: r) = c :: trimEnd r.
Proof.
  intros Hc. unfold trimEnd. simpl rev at 2.
  rewrite trimStart_snoc by exact Hc.
  rewrite rev_app_distr. reflexivity.
Qed.

Lemma trimEnd_head (s : jsstring) :
  startsWithSpace s = false -> startsWithSpace (trimEnd s) = false.
Proof.
  destruct s as [|c r]; [reflexivity|]. simpl. intros Hc.
  rewrite trimEnd_cons by exact Hc. exact Hc.
Qed.

Lemma trim_length (s : jsstring) : strlen (trim s) <= strlen s.
Proof.
  unfold trim. pose proof (trimEnd_length (trimStart s)).
  pose proof (trimStart_length s). lia.
Qed.

Lemma trim_head (s : jsstring) : startsWithSpace (trim s) = false.
Proof. apply trimEnd_head, trimStart_head. Qed.

Lemma trim_tail (s : jsstring) : endsWithSpace (trim s) = false.
Proof. apply trimEnd_tail. Qed.

Lemma trim_idem (s : jsstring) : trim (trim s) = trim s.
Proof.
  unfold trim at 1. rewrite (trimStart_fixed _ (trim_head s)).
  unfold trim. apply trimEnd_idem.
Qed.

Lemma trimStart_nonempty (s : jsstring) :
  allSpace s = false -> exists c r, trimStart s = c :: r /\ isWhiteSpace c = false.
Proof.
  induction s as [|c r IH]; simpl; [discriminate|].
  destruct (isWhiteSpace c) eqn:E; simpl.
  - exact IH.
  - intros _. now exists c, r.
Qed.

Lemma trim_nonempty (s : jsstring) : allSpace s = false -> 0 < strlen (trim s).
Proof.
  intros H. destruct (trimStart_nonempty s H) as (c & r & E & Hc).
  unfold trim. rewrite E, trimEnd_cons by exact Hc.
  unfold strlen. simpl. lia.
Qed.

Lemma trim_allSpace (s : jsstring) : allSpace s = true -> trim s = [].
Proof.
  intros H. unfold trim.
  assert (E : trimStart s = []).
  { induction s as [|c r IH]; simpl in *; [reflexivity|].
    apply andb_true_iff in H. destruct H as [-> H]. auto. }
  now rewrite E.
Qed.

End Trim.

(* ================================================================= *)
(** ** Validation *)

Section ValidationFacts.

Lemma sanitize_strings (x : NoteInput) :
  sanitizeNoteInput x =
  {| title := VStr (trim (String_ (nullish (default (title x) (VStr [])) (VStr []))));
     content := VStr (trim (String_ (nullish (default (content x) (VStr [])) (VStr [])))) |}.
Proof. reflexivity. Qed.

(** On strings, validation is a test of the two lengths. *)
Lemma validateNote_strings (t c : jsstring) :
  valid (validateNote {| title := VStr t; content := VStr c |})
  = (0 <? strlen t) && (strlen t <=? MAX_TITLE) && (strlen c <=? MAX_CONTENT).
Proof.
  unfold validateNote. cbn [title content default nullish String_].
  pose proof (Zle_0_nat (List.length t)) as Ht. fold (strlen t) in Ht.
  destruct (strlen t =? 0) eqn:E0; destruct (strlen t >? MAX_TITLE) eqn:E1;
    destruct (strlen c >? MAX_CONTENT) eqn:E2;
    cbn [valid keys_length set_title set_content no_errors err_title err_content];
    unfold MAX_TITLE, MAX_CONTENT in *;
    repeat match goal with
           | H : (_ =? _) = _ |- _ => first [apply Z.eqb_eq in H | apply Z.eqb_neq in H]
           | H : (_ >? _) = _ |- _ => rewrite Z.gtb_ltb in H;
                                      first [apply Z.ltb_lt in H | apply Z.ltb_ge in H]
           end;
    symmetry; cbn [Z.add Z.eqb Pos.add Pos.eqb Pos.succ];
    first [ apply andb_true_iff; split; [apply andb_true_iff; split|];
            first [apply Z.ltb_lt | apply Z.leb_le]; lia
          | apply andb_false_iff;
            first [ right; apply Z.leb_gt; lia
                  | left; apply andb_false_iff;
                    first [left; apply Z.ltb_ge; lia | right; apply Z.leb_gt; lia] ] ].
Qed.

(** The messages of [validateNote] are not empty. *)
Lemma validateNote_messages (x : NoteInput) :
  let e := errors (validateNote x) in
  (forall m, err_title e = Some m -> truthy (VStr m) = true)
  /\ (forall m, err_content e = Some m -> truthy (VStr m) = true).
Proof.
  unfold validateNote. cbv zeta.
  set (t := String_ (nullish (default (title x) _) _)).
  set (c := String_ (nullish (default (content x) _) _)).
  destruct (strlen t =? 0), (strlen t >? MAX_TITLE), (strlen c >? MAX_CONTENT);
    cbn [errors set_title set_content no_errors err_title err_content];
    split; intros m H; inversion H; reflexivity.
Qed.

(** An input is invalid exactly when some field has a message. *)
Lemma validateNote_invalid (x : NoteInput) :
  valid (validateNote x) = false ->
  exists m, first_failing_message (errors (validateNote x)) = Some m.
Proof.
  unfold validateNote, first_failing_message. cbv zeta.
  set (t := String_ (nullish (default (title x) _) _)).
  set (c := String_ (nullish (default (content x) _) _)).
  destruct (strlen t =? 0), (strlen t >? MAX_TITLE), (strlen c >? MAX_CONTENT);
    cbn [valid errors keys_length set_title set_content no_errors err_title err_content];
    intros H; try discriminate; eexists; reflexivity.
Qed.

End ValidationFacts.

(** C5, as stated, fails: a title of one space has length 1, is trimmed
    to the empty string by [sanitizeNoteInput] and is then rejected with
    the title-required message. *)
Lemma valid_lengths_counterexample :
  let t := lit " " in
  let c := lit "" in
  (1 <= strlen t <= 200 /\ strlen c <= 10000)
  /\ validateNote (sanitizeNoteInput {| title := VStr t; content := VStr c |})
     = {| valid := false;
          errors := {| err_title := Some (lit "Title is required.");
                       err_content := None |} |}.
Proof. split; [vm_compute; intuition discriminate | reflexivity]. Qed.

(** C5, amended: for every pair of strings with [1 <= len(title) <= 200]
    and [len(content) <= 10000] whose title is not made of white space
    only, [validateNote (sanitizeNoteInput {title, content})] returns
    [valid: true]. *)
Theorem valid_lengths_accepted (t c : jsstring) :
  1 <= strlen t <= 200 ->
  strlen c <= 10000 ->
  allSpace t = false ->
  valid (validateNote (sanitizeNoteInput {| title := VStr t; content := VStr c |}))
  = true.
Proof.
  intros Ht Hc Hs. rewrite sanitize_strings.
  cbn [title content default nullish String_].
  rewrite validateNote_strings. unfold MAX_TITLE, MAX_CONTENT.
  pose proof (trim_length t). pose proof (trim_length c).
  pose proof (trim_nonempty t Hs).
  apply andb_true_iff; split; [apply andb_true_iff; split|].
  - apply Z.ltb_lt. lia.
  - apply Z.leb_le. lia.
  - apply Z.leb_le. lia.
Qed.

Lemma valid_lengths_accepted_witness :
  valid (validateNote (sanitizeNoteInput
           {| title := VStr (lit " Shopping list "); content := VStr (lit "milk, eggs") |}))
  = true.
Proof.
  apply valid_lengths_accepted; vm_compute; intuition discriminate.
Defined.

(** C10: [sanitizeNoteInput] is idempotent; its output has string-valued
    title and content with no white space at either end; a field that is
    [null] or [undefined] comes out as the empty string. *)
Theorem sanitizeNoteInput_idempotent (x : NoteInput) :
  sanitizeNoteInput (sanitizeNoteInput x) = sanitizeNoteInput x
  /\ (exists t c,
        sanitizeNoteInput x = {| title := VStr t; content := VStr c |}
        /\ startsWithSpace t = false /\ endsWithSpace t = false
        /\ startsWithSpace c = false /\ endsWithSpace c = false)
  /\ (title x = VNull \/ title x = VUndefined ->
      title (sanitizeNoteInput x) = VStr (lit ""))
  /\ (content x = VNull \/ content x = VUndefined ->
      content (sanitizeNoteInput x) = VStr (lit "")).
Proof.
  split; [|split; [|split]].
  - rewrite (sanitize_strings (sanitizeNoteInput x)), (sanitize_strings x).
    cbn [title content default nullish String_].
    now rewrite !trim_idem.
  - eexists _, _. split; [apply sanitize_strings|].
    repeat split; first [apply trim_head | apply trim_tail].
  - rewrite sanitize_strings. cbn [title].
    intros [E | E]; rewrite E; reflexivity.
  - rewrite sanitize_strings. cbn [content].
    intros [E | E]; rewrite E; reflexivity.
Qed.

(* ================================================================= *)
(** ** Transport *)

Section Transport.

(** Projections of a world that was just built, and the test of a timer
    id against itself. *)
Ltac simpl_world :=
  repeat (cbn [plat api app clock timers next_timer protocol hostname calls backend
               List.find fst snd List.filter negb];
          rewrite ?Z.eqb_refl).

Lemma filter_filter_same {A} (f : A -> bool) (l : list A) :
  List.filter f (List.filter f l) = List.filter f l.
Proof.
  induction l as [|a l IH]; simpl; [reflexivity|].
  destruct (f a) eqn:E; simpl; [rewrite E, IH|]; auto.
Qed.

(** One call of [apiRequest], run to its end: the response if it comes
    no later than the deadline, else the time-out. *)
Lemma apiRequest_run (path : jsstring) (o : Options) (w : World) :
  let net := network_of path o w in
  let due := clock (plat w) + Z.max 0 (timeoutMs o) in
  let arrival := clock (plat w) + Z.max 0 (latency net) in
  apiRequest path o w =
  if arrival <=? due then
    match outcome net with
    | Fulfilled r => (Done (on_response r), request_done path o arrival w)
    | Rejected err => (Done (on_error err), request_done path o arrival w)
    end
  else (Done timed_out, request_done path o due w).
Proof.
  destruct w as [p a s]. destruct p as [clk tms nxt pr hn cs be].
  cbv zeta.
  unfold network_of, apiRequest, bind, setTimeout, gets, try_catch, fetch,
    clearTimeout, modify, ret, request_done, on_plat, due_of, remove_timer,
    build_request.
  simpl_world.
  set (req := mkRequest _ _ _ _).
  destruct (clk + Z.max 0 (latency (be (req :: cs))) <=? clk + Z.max 0 (timeoutMs o)).
  - destruct (outcome (be (req :: cs))); simpl_world; reflexivity.
  - simpl_world. rewrite filter_filter_same. reflexivity.
Qed.

Lemma on_error_shape (err : value) :
  ok (on_error err) = false /\ status (on_error err) = 0
  /\ data (on_error err) = VNull /\ is_message (error (on_error err)).
Proof.
  unfold on_error. cbn [ok status data error]. repeat split.
  destruct (truthy _); eexists; (split; [reflexivity | discriminate]).
Qed.

Lemma timed_out_is_on_error : on_error AbortError = timed_out.
Proof. reflexivity. Qed.

Lemma is_message_truthy (v : value) : is_message v -> truthy v = true.
Proof.
  intros (s & -> & Hs). destruct s; [contradiction | reflexivity].
Qed.

Lemma failure_message_truthy (res : Response) (d : value) :
  truthy (failure_message res d) = true.
Proof.
  unfold failure_message, or_.
  destruct (truthy (and_ d _)) eqn:E; [exact E | reflexivity].
Qed.

Lemma textual_truthy_message (v : value) :
  textual v = true -> truthy v = true -> is_message v.
Proof.
  destruct v; try discriminate. intros _ H. exists s. split; [reflexivity|].
  destruct s; [discriminate H | discriminate].
Qed.

(** With text in the error fields of the body, the message is text. *)
Lemma failure_message_text (res : Response) (d : value) :
  textual_errors d = true -> is_message (failure_message res d).
Proof.
  unfold textual_errors. intros H.
  apply andb_true_iff in H. destruct H as [H He].
  apply andb_true_iff in H. destruct H as [Hd Hm].
  unfold failure_message, or_ at 1.
  destruct (truthy (and_ d _)) eqn:E.
  - unfold and_ in *. destruct (truthy d) eqn:Td; [|congruence].
    unfold or_ in *.
    destruct (truthy (prop d "detail")) eqn:T1.
    + rewrite T1 in *. now apply textual_truthy_message.
    + destruct (truthy (prop d "message")) eqn:T2.
      * now apply textual_truthy_message.
      * now apply textual_truthy_message.
  - eexists. split; [reflexivity | discriminate].
Qed.

Lemma on_response_shape (r : Response) :
  status (on_response r) = res_status r
  /\ ok (on_response r) = res_ok r
  /\ (res_ok r = true ->
      error (on_response r) = VNull /\ data (on_response r) = read_body r)
  /\ (res_ok r = false ->
      data (on_response r) = VNull
      /\ truthy (error (on_response r)) = true
      /\ (textual_errors (read_body r) = true -> is_message (error (on_response r)))).
Proof.
  unfold on_response. destruct (res_ok r); cbn [negb ok status error data].
  - repeat split; discriminate.
  - repeat split; try discriminate.
    + apply failure_message_truthy.
    + apply failure_message_text.
Qed.

(** [apiRequest] returns, and what it returns is the response handled by
    the [try] block or an error handled by the [catch] block. *)
Lemma apiRequest_done (path : jsstring) (o : Options) (w : World) :
  exists res t,
    apiRequest path o w = (Done res, request_done path o t w)
    /\ ((exists r, outcome (network_of path o w) = Fulfilled r /\ res = on_response r)
        \/ (exists err, res = on_error err)).
Proof.
  rewrite apiRequest_run. cbv zeta.
  destruct (_ <=? _).
  - destruct (outcome (network_of path o w)) as [r|err] eqn:E.
    + eexists _, _. split; [reflexivity|]. left. now exists r.
    + eexists _, _. split; [reflexivity|]. right. now exists err.
  - eexists _, _. split; [reflexivity|]. right. exists AbortError. reflexivity.
Qed.

(** A failed request carries a truthy error and no data. *)
Lemma apiRequest_failure (path : jsstring) (o : Options) (w w' : World) (res : Outcome) :
  apiRequest path o w = (Done res, w') ->
  (ok res = true -> error res = VNull)
  /\ (ok res = false -> data res = VNull /\ truthy (error res) = true).
Proof.
  intros H. destruct (apiRequest_done path o w) as (res0 & t & E & Hs).
  rewrite E in H. inversion H; subst res0 w'. clear H E.
  destruct Hs as [(r & _ & ->) | (err & ->)].
  - destruct (on_response_shape r) as (_ & Hok & Ht & Hf). rewrite Hok.
    split; intros Hr; [apply (Ht Hr) | split; apply (Hf Hr)].
  - destruct (on_error_shape err) as (Hok & _ & Hd & Hm).
    split; [congruence | intros _; split; [exact Hd | now apply is_message_truthy]].
Qed.

End Transport.

(* ================================================================= *)
(** ** The hook *)

Section HookFacts.

(** [withLoading] is its entry, the awaited function, and the rest. *)
Lemma withLoading_run (fn : M Outcome) (w : World) :
  withLoading fn w =
  (fst (fn (withLoading_enter w)),
   withLoading_settle (fst (fn (withLoading_enter w))) (snd (fn (withLoading_enter w)))).
Proof.
  unfold withLoading, bind, modify, try_finally, withLoading_settle, when, ret.
  destruct (fn (withLoading_enter w)) as [[res|e] w1]; cbn [fst snd]; [|reflexivity].
  destruct (ok res); reflexivity.
Qed.


Lemma finally_inFlight (w : World) :
  inFlight (api (withLoading_finally w)) = Z.max 0 (inFlight (api w) - 1)
  /\ loading (api (withLoading_finally w))
     = (if inFlight (api w) - 1 <=? 0 then false else loading (api w))
  /\ Async.error (api (withLoading_finally w)) = Async.error (api w)
  /\ app (withLoading_finally w) = app w
  /\ plat (withLoading_finally w) = plat w.
Proof.
  unfold withLoading_finally, setInFlight, setLoading, on_api.
  cbn [api inFlight loading Async.error app plat].
  destruct (inFlight (api w) - 1 <=? 0) eqn:E;
    cbn [api inFlight loading Async.error app plat]; repeat split.
  - apply Z.leb_le in E. lia.
  - apply Z.leb_gt in E. lia.
Qed.

Lemma settle_inFlight (r : completion Outcome) (w : World) :
  inFlight (api (withLoading_settle r w)) = Z.max 0 (inFlight (api w) - 1)
  /\ loading (api (withLoading_settle r w))
     = (if inFlight (api w) - 1 <=? 0 then false else loading (api w))
  /\ app (withLoading_settle r w) = app w
  /\ plat (withLoading_settle r w) = plat w.
Proof.
  unfold withLoading_settle.
  set (w1 := match r with Done _ => _ | Throw _ => _ end).
  assert (E : inFlight (api w1) = inFlight (api w) /\ loading (api w1) = loading (api w)
              /\ app w1 = app w /\ plat w1 = plat w).
  { subst w1. destruct r as [res|e]; [destruct (ok res)|]; repeat split. }
  destruct E as (E1 & E2 & E3 & E4).
  destruct (finally_inFlight w1) as (F1 & F2 & _ & F4 & F5).
  rewrite F1, F2, F4, F5, E1, E2, E3, E4. repeat split.
Qed.

(** The error a settled call leaves: the failure's, or what was there. *)
Lemma settle_error (r : completion Outcome) (w : World) :
  Async.error (api (withLoading_settle r w))
  = match r with
    | Done res => if ok res then Async.error (api w)
                  else or_ (error res) (VStr (lit "Unknown error"))
    | Throw _ => Async.error (api w)
    end.
Proof.
  unfold withLoading_settle.
  set (w1 := match r with Done _ => _ | Throw _ => _ end).
  destruct (finally_inFlight w1) as (_ & _ & F & _). rewrite F. subst w1.
  destruct r as [res|e]; [destruct (ok res)|]; reflexivity.
Qed.





End HookFacts.



(** C2: an input that does not validate makes [createNote] and
    [updateNote] return status 400 with the message of the first failing
    field, the title's before the content's, and no data; the world is
    left as it was: no request is logged, the counter is not touched. *)
Theorem invalid_input_rejected (x : NoteInput) (id : value) (w : World) :
  valid (validateNote (sanitizeNoteInput x)) = false ->
  exists m,
    first_failing_message (errors (validateNote (sanitizeNoteInput x))) = Some m
    /\ createNote x w
       = (Done {| ok := false; status := 400; error := VStr m; data := VNull |}, w)
    /\ updateNote id x w
       = (Done {| ok := false; status := 400; error := VStr m; data := VNull |}, w).
Proof.
  intros Hv. destruct (validateNote_invalid _ Hv) as [m Hm]. exists m.
  split; [exact Hm|].
  assert (E : validation_failure (errors (validateNote (sanitizeNoteInput x)))
              = {| ok := false; status := 400; error := VStr m; data := VNull |}).
  { unfold validation_failure. f_equal.
    destruct (validateNote_messages (sanitizeNoteInput x)) as [Ht Hc].
    cbv zeta in Ht, Hc. unfold first_failing_message in Hm.
    destruct (err_title _) as [mt|] eqn:Et.
    - inversion Hm; subst mt. cbn [read].
      rewrite (or_truthy (VStr m)) by exact (Ht m eq_refl).
      apply or_truthy, (Ht m eq_refl).
    - rewrite Hm. cbn [read].
      rewrite (or_falsy VUndefined) by reflexivity.
      apply or_truthy, (Hc m Hm). }
  unfold createNote, updateNote. destruct x as [t c]. cbn [title content].
  rewrite Hv. cbn [negb]. unfold ret. rewrite E. split; reflexivity.
Qed.

Lemma invalid_input_rejected_witness :
  createNote {| title := VStr (lit "   "); content := VStr (lit "body") |}
             (Sample.world Sample.offline)
  = (Done {| ok := false; status := 400; error := VStr (lit "Title is required.");
             data := VNull |},
     Sample.world Sample.offline).
Proof.
  destruct (invalid_input_rejected
              {| title := VStr (lit "   "); content := VStr (lit "body") |}
              VNull (Sample.world Sample.offline) eq_refl) as (m & Hm & Hc & _).
  vm_compute in Hm. inversion Hm; subst m. exact Hc.
Defined.

Section Calls.

(** A call of the hook that reaches the network: it returns what the
    awaited function makes of the outcome of the one request. *)
Lemma call_run (path : jsstring) (o : Options) (f : Outcome -> Outcome) (w : World) :
  exists res t,
    apiRequest path o (withLoading_enter w)
    = (Done res, request_done path o t (withLoading_enter w))
    /\ withLoading (res <- apiRequest path o ;; ret (f res)) w
       = (Done (f res),
          withLoading_settle (Done (f res))
            (request_done path o t (withLoading_enter w))).
Proof.
  destruct (apiRequest_done path o (withLoading_enter w)) as (res & t & E & _).
  exists res, t. split; [exact E|].
  rewrite withLoading_run. unfold bind, ret. rewrite E. reflexivity.
Qed.

Lemma call_frame (path : jsstring) (o : Options) (t : Z) (r : completion Outcome)
      (w : World) :
  let w' := withLoading_settle r (request_done path o t (withLoading_enter w)) in
  app w' = app w
  /\ calls (plat w') = build_request path o (plat w) :: calls (plat w)
  /\ backend (plat w') = backend (plat w).
Proof.
  cbv zeta.
  destruct (settle_inFlight r (request_done path o t (withLoading_enter w)))
    as (_ & _ & Ea & Ep).
  rewrite Ea, Ep. repeat split.
Qed.

(** The error of a failed call becomes the error of the hook. *)
Lemma call_error (path : jsstring) (o : Options) (t : Z) (res : Outcome) (w : World) :
  ok res = false -> truthy (error res) = true ->
  Async.error (api (withLoading_settle (Done res)
                      (request_done path o t (withLoading_enter w))))
  = error res.
Proof.
  intros Hok Ht. rewrite settle_error, Hok. now apply or_truthy.
Qed.

Lemma listNotes_result_failure (res : Outcome) :
  ok (listNotes_result res) = false -> listNotes_result res = res /\ ok res = false.
Proof.
  unfold listNotes_result. destruct (ok res) eqn:E; cbn [negb ok]; intros H;
    [discriminate | split; reflexivity].
Qed.

(** The three ways an operation of the hook goes: the id cannot be
    encoded and the operation throws; the input does not validate and the
    failure is returned on the spot; or one request is made under
    [withLoading]. *)
Lemma perform_cases (op : operation) (w : World) :
  (encodable op = false /\ rejected_locally op = false
   /\ perform op w = (Throw URIError, w))
  \/ (encodable op = true /\ rejected_locally op = true
      /\ exists e, perform op w = (Done (validation_failure e), w))
  \/ (encodable op = true /\ rejected_locally op = false
      /\ exists p o f,
           (f = (fun r => r) \/ f = listNotes_result)
           /\ perform op w = withLoading (res <- apiRequest p o ;; ret (f res)) w).
Proof.
  destruct op as [|id|x|id x|id]; unfold encodable; cbn [perform path_id rejected_locally].
  - right. right. repeat split. eexists _, _, listNotes_result. now split; [right|].
  - unfold getNote, safeId_of, bind.
    destruct (encodeURIComponent (String_ id)) as [e|].
    + right. right. repeat split. eexists _, _, (fun r => r). now split; [left|].
    + left. repeat split.
  - unfold createNote. destruct x as [t c]. cbn [title content].
    destruct (valid _); cbn [negb].
    + right. right. repeat split. eexists _, _, (fun r => r). now split; [left|].
    + right. left. repeat split. eexists. reflexivity.
  - unfold updateNote, safeId_of, bind. destruct x as [t c]. cbn [title content].
    destruct (valid _); cbn [negb].
    + destruct (encodeURIComponent (String_ id)) as [e|].
      * right. right. repeat split. eexists _, _, (fun r => r). now split; [left|].
      * left. repeat split.
    + right. left. repeat split. eexists. reflexivity.
  - unfold deleteNote, safeId_of, bind.
    destruct (encodeURIComponent (String_ id)) as [e|].
    + right. right. repeat split. eexists _, _, (fun r => r). now split; [left|].
    + left. repeat split.
Qed.

End Calls.

(** C9: when the list request is answered in time with a 2xx status,
    [listNotes] returns [ok: true] with the body if it is an array and
    with the empty list if it is not. *)
Theorem listNotes_normalizes (w : World) (r : Response) :
  let net := network_of (lit "/notes") (with_method "GET") w in
  outcome net = Fulfilled r ->
  latency net <= DEFAULT_TIMEOUT_MS ->
  res_ok r = true ->
  exists w',
    listNotes w
    = (Done {| ok := true; status := res_status r; error := VNull;
               data := if isArray (read_body r) then read_body r else VArr [] |}, w')
    /\ (forall xs, read_body r = VArr xs -> fst (listNotes w)
          = Done {| ok := true; status := res_status r; error := VNull;
                    data := VArr xs |})
    /\ (isArray (read_body r) = false -> fst (listNotes w)
          = Done {| ok := true; status := res_status r; error := VNull;
                    data := VArr [] |}).
Proof.
  intros net Hr Hl Hok.
  assert (E : apiRequest (lit "/notes") (with_method "GET") (withLoading_enter w)
              = (Done (on_response r),
                 request_done (lit "/notes") (with_method "GET")
                   (clock (plat w) + Z.max 0 (latency net)) (withLoading_enter w))).
  { rewrite apiRequest_run. cbv zeta.
    change (network_of (lit "/notes") (with_method "GET") (withLoading_enter w)) with net.
    change (plat (withLoading_enter w)) with (plat w).
    replace (clock (plat w) + Z.max 0 (latency net)
             <=? clock (plat w) + Z.max 0 (timeoutMs (with_method "GET"))) with true.
    - now rewrite Hr.
    - symmetry. apply Z.leb_le. cbn [timeoutMs with_method defaults].
      unfold DEFAULT_TIMEOUT_MS in *. lia. }
  assert (L : listNotes w
              = (Done (listNotes_result (on_response r)),
                 withLoading_settle (Done (listNotes_result (on_response r)))
                   (request_done (lit "/notes") (with_method "GET")
                      (clock (plat w) + Z.max 0 (latency net)) (withLoading_enter w)))).
  { unfold listNotes. rewrite withLoading_run. unfold bind, ret. rewrite E. reflexivity. }
  assert (R : listNotes_result (on_response r)
              = {| ok := true; status := res_status r; error := VNull;
                   data := if isArray (read_body r) then read_body r else VArr [] |}).
  { unfold listNotes_result, on_response. rewrite Hok. reflexivity. }
  rewrite R in L. eexists. split; [exact L|]. rewrite L. cbn [fst].
  split.
  - intros xs Hx. rewrite Hx. reflexivity.
  - intros Hx. rewrite Hx. reflexivity.
Qed.

Lemma listNotes_normalizes_witness :
  fst (listNotes (Sample.world (Sample.answering 40 Sample.wrappedList)))
  = Done {| ok := true; status := 200; error := VNull; data := VArr [] |}.
Proof.
  destruct (listNotes_normalizes
              (Sample.world (Sample.answering 40 Sample.wrappedList))
              Sample.wrappedList
              eq_refl ltac:(vm_compute; discriminate) eq_refl) as (w' & _ & _ & H).
  apply H. reflexivity.
Defined.

Section OutcomeFacts.

Lemma first_truthy_truthy (d v : value) :
  first_truthy_field d = Some v -> truthy v = true.
Proof.
  unfold first_truthy_field.
  destruct (truthy (prop d "detail")) eqn:Td; [intros H; inversion H; now subst|].
  destruct (truthy (prop d "message")) eqn:Tm; [intros H; inversion H; now subst|].
  destruct (truthy (prop d "error")) eqn:Te; [intros H; inversion H; now subst|].
  discriminate.
Qed.

(** The message of line 50-52 is the first truthy error field, else the
    text with the status. *)
Lemma failure_message_first (r : Response) (d : value) :
  failure_message r d
  = match first_truthy_field d with
    | Some v => v
    | None => generic_message (res_status r)
    end.
Proof.
  unfold failure_message, first_truthy_field. fold (generic_message (res_status r)).
  destruct d as [| |b|n|s|xs|fields]; cbn [prop].
  7: { unfold and_. cbn [truthy]. unfold or_.
       destruct (truthy (lookup (lit "detail") fields)) eqn:Td;
         destruct (truthy (lookup (lit "message") fields)) eqn:Tm;
         destruct (truthy (lookup (lit "error") fields)) eqn:Te;
         repeat (first [rewrite Td | rewrite Tm | rewrite Te]; cbv iota);
         reflexivity. }
  all: unfold and_;
    match goal with
    | |- or_ (if ?c then _ else _) _ = _ => destruct c eqn:T
    end; try discriminate T;
    (transitivity (generic_message (res_status r));
     [apply or_falsy; first [reflexivity | exact T] | reflexivity]).
Qed.

Lemma on_error_texts (err : value) :
  error (on_error err) = VStr (lit "Request timed out")
  \/ error (on_error err) = VStr (lit "Network error").
Proof.
  unfold on_error. cbn [error]. destruct (truthy _); [now left | now right].
Qed.

Lemma generic_is_message (st : Z) : is_message (generic_message st).
Proof. eexists. split; [reflexivity | discriminate]. Qed.

(** A validation failure carries a message, whatever the errors. *)
Lemma validation_failure_message (e : Errors) :
  is_message (error (validation_failure e)).
Proof.
  destruct e as [[[|a mt]|] [[|b mc]|]]; cbn; eexists; (split; [reflexivity | discriminate]).
Qed.

Lemma transport_invariant_holds (path : jsstring) (o : Options) (w w' : World)
      (res : Outcome) :
  apiRequest path o w = (Done res, w') ->
  transport_invariant (network_of path o w) res.
Proof.
  intros H. destruct (apiRequest_done path o w) as (res0 & t & E & Hs).
  rewrite E in H. inversion H; subst res0 w'. clear H E.
  unfold transport_invariant.
  destruct Hs as [(r & Hr & ->) | (err & ->)].
  - destruct (on_response_shape r) as (Hst & Hok & Ht & Hf). rewrite Hok.
    destruct (res_ok r) eqn:K.
    + split; [apply (Ht eq_refl)|]. exists r. repeat split; assumption.
    + destruct (Hf eq_refl) as (Hd & Htr & _).
      split; [exact Hd|]. split; [exact Htr|]. right. exists r.
      repeat split; try assumption.
      unfold on_response. rewrite K. cbn [negb error]. apply failure_message_first.
  - destruct (on_error_shape err) as (Hok & Hst & Hd & Hm). rewrite Hok.
    split; [exact Hd|]. split; [now apply is_message_truthy|]. left.
    split; [exact Hst | apply on_error_texts].
Qed.

(** With text in the error field that is taken, the outcome is a
    RequestOutcome in the words of the data model. *)
Lemma transport_invariant_text (net : network) (res : Outcome) :
  transport_invariant net res -> error_field_is_text net ->
  RequestOutcome_invariant res.
Proof.
  unfold transport_invariant, RequestOutcome_invariant, error_field_is_text.
  destruct (ok res); [now intros [H _] _|].
  intros (Hd & Ht & Hc) Htext. split; [exact Hd|].
  destruct Hc as [(_ & [He | He]) | (r & Hr & _ & _ & He)].
  - rewrite He. eexists. split; [reflexivity | discriminate].
  - rewrite He. eexists. split; [reflexivity | discriminate].
  - destruct (first_truthy_field (read_body r)) as [v|] eqn:F.
    + destruct (Htext r v Hr F) as [s ->]. rewrite He in Ht. rewrite He.
      exists s. split; [reflexivity|]. destruct s; [discriminate Ht | discriminate].
    + rewrite He. apply generic_is_message.
Qed.

End OutcomeFacts.

(** C4, as stated, fails: a 422 response whose detail field is a list
    makes [apiRequest] return that list as the error, which is no
    message; and a create rejected by validation returns status 400 with
    no request made. *)
Lemma outcome_invariant_counterexample :
  let r := apiRequest (lit "/notes") defaults
             (Sample.world (Sample.answering 3 Sample.unprocessable)) in
  let v := perform (CreateNote {| title := VStr (lit ""); content := VStr (lit "") |})
             (Sample.world Sample.offline) in
  fst r = Done {| ok := false; status := 422;
                  error := VArr [VObj [(lit "msg", VStr (lit "field required"))]];
                  data := VNull |}
  /\ ~ RequestOutcome_invariant
         {| ok := false; status := 422;
            error := VArr [VObj [(lit "msg", VStr (lit "field required"))]];
            data := VNull |}
  /\ fst v = Done {| ok := false; status := 400;
                     error := VStr (lit "Title is required."); data := VNull |}
  /\ calls (plat (snd v)) = [].
Proof.
  split; [reflexivity|]. split; [|split; reflexivity].
  unfold RequestOutcome_invariant, is_message. cbn [ok error data].
  intros (_ & s & H & _). discriminate H.
Qed.

(** C4, amended: [apiRequest] always returns an outcome [res], of which
    [transport_invariant] holds: with [ok] true the error is null and the
    status is the one of the response; with [ok] false the data is null,
    the error is truthy (neither null nor empty) and either the status
    is 0 and the error is "Request timed out" or "Network error", or the
    status is the one of the response and the error is the first truthy
    of the fields detail, message and error of the body, as it is, or
    "Request failed with status N" when none is truthy; so the error is
    a non-empty string, and the outcome a RequestOutcome, whenever the
    field taken is a string.  An operation of the hook that returns
    either was rejected by validation, with no request made, and
    returns status 400, no data and a non-empty message; or returns the
    [ok], the status and the error of its one request, with null data
    on failure, so that it is a RequestOutcome when the outcome of the
    request is. *)
Theorem outcome_invariant (path : jsstring) (o : Options) (w : World) :
  (exists res w',
     apiRequest path o w = (Done res, w')
     /\ transport_invariant (network_of path o w) res
     /\ (error_field_is_text (network_of path o w) -> RequestOutcome_invariant res))
  /\ (forall op res1 w1, perform op w = (Done res1, w1) ->
        (rejected_locally op = true
         /\ w1 = w
         /\ ok res1 = false /\ status res1 = 400 /\ data res1 = VNull
         /\ is_message (error res1))
        \/ (rejected_locally op = false
            /\ exists p o' res0 w0,
                 apiRequest p o' (withLoading_enter w) = (Done res0, w0)
                 /\ calls (plat w1) = build_request p o' (plat w) :: calls (plat w)
                 /\ transport_invariant (network_of p o' (withLoading_enter w)) res0
                 /\ ok res1 = ok res0 /\ status res1 = status res0
                 /\ error res1 = error res0
                 /\ (ok res1 = false -> data res1 = VNull)
                 /\ (RequestOutcome_invariant res0 -> RequestOutcome_invariant res1))).
Proof.
  split.
  - destruct (apiRequest_done path o w) as (res & t & E & _).
    exists res, (request_done path o t w). split; [exact E|].
    pose proof (transport_invariant_holds _ _ _ _ _ E) as T.
    split; [exact T | now apply transport_invariant_text].
  - intros op res1 w1 H.
    destruct (perform_cases op w)
      as [(_ & _ & E) | [(_ & Hr & e & E) | (_ & Hr & p & o' & f & Hf & E)]];
      rewrite E in H.
    + discriminate H.
    + left. inversion H; subst res1 w1. split; [exact Hr|].
      repeat split. apply validation_failure_message.
    + right. split; [exact Hr|].
      destruct (call_run p o' f w) as (res0 & t & Ea & R).
      rewrite R in H. inversion H; subst res1 w1. clear H R.
      exists p, o', res0, (request_done p o' t (withLoading_enter w)).
      split; [exact Ea|]. split; [apply call_frame|].
      pose proof (transport_invariant_holds _ _ _ _ _ Ea) as T.
      split; [exact T|].
      destruct (apiRequest_failure _ _ _ _ _ Ea) as [Hsucc Hfail].
      destruct Hf as [-> | ->].
      * split; [reflexivity|]. split; [reflexivity|]. split; [reflexivity|].
        split; [intros Hk; apply (Hfail Hk) | auto].
      * assert (F : listNotes_result res0
                    = if ok res0
                      then {| ok := true; status := status res0; error := VNull;
                              data := if isArray (data res0) then data res0 else VArr [] |}
                      else res0).
        { unfold listNotes_result. destruct (ok res0); reflexivity. }
        rewrite F. destruct (ok res0) eqn:Hok; cbn [ok status error data].
        -- rewrite (Hsucc eq_refl).
           split; [reflexivity|]. split; [reflexivity|]. split; [reflexivity|].
           split; [discriminate|]. intros _. unfold RequestOutcome_invariant. reflexivity.
        -- split; [exact Hok|]. split; [reflexivity|]. split; [reflexivity|].
           split; [intros _; apply (Hfail eq_refl) | auto].
Qed.

(** C8: when the response of a request does not come within the budget
    ([timeoutMs], 10000 by default), [fetch] is aborted and [apiRequest]
    returns, at the deadline, [ok: false], status 0 and the error
    "Request timed out"; and on every path, in time or not, response or
    rejection, the timer of the call is no longer pending afterwards. *)
Theorem request_timeout (path : jsstring) (o : Options) (w : World) :
  exists res w',
    apiRequest path o w = (Done res, w')
    /\ (forall t, In t (timers (plat w')) ->
                  In t (timers (plat w)) /\ fst t <> next_timer (plat w))
    /\ (0 <= timeoutMs o ->
        timeoutMs o < latency (network_of path o w) ->
        res = {| ok := false; status := 0; error := VStr (lit "Request timed out");
                 data := VNull |}
        /\ clock (plat w') = clock (plat w) + timeoutMs o
        /\ fst (fetch (build_request path o (plat w)) (next_timer (plat w))
                      (snd (setTimeout (timeoutMs o) w)))
           = Throw AbortError)
    /\ timeoutMs defaults = 10000.
Proof.
  destruct (apiRequest_done path o w) as (res & t & E & _).
  exists res, (request_done path o t w). split; [exact E|]. split; [|split].
  - intros x Hx. unfold request_done, on_plat in Hx. cbn [plat timers] in Hx.
    apply filter_In in Hx. destruct Hx as [Hin Hne]. split; [exact Hin|].
    apply negb_true_iff, Z.eqb_neq in Hne. exact Hne.
  - intros H0 Hlate. rewrite apiRequest_run in E. cbv zeta in E.
    assert (L : (clock (plat w) + Z.max 0 (latency (network_of path o w))
                 <=? clock (plat w) + Z.max 0 (timeoutMs o)) = false).
    { apply Z.leb_gt. lia. }
    rewrite L in E. inversion E as [[Hres Hw]]. split; [reflexivity|]. split.
    + unfold request_done, on_plat. cbn [plat clock]. lia.
    + unfold fetch, setTimeout, on_plat, due_of.
      cbn [snd plat clock timers next_timer protocol hostname calls backend List.find fst].
      rewrite Z.eqb_refl. cbn [snd]. unfold network_of in L. rewrite L. reflexivity.
  - reflexivity.
Qed.

Lemma request_timeout_witness :
  fst (apiRequest (lit "/notes") defaults
         (Sample.world (Sample.answering 10001 Sample.savedNote)))
  = Done timed_out.
Proof.
  destruct (request_timeout (lit "/notes") defaults
              (Sample.world (Sample.answering 10001 Sample.savedNote)))
    as (res & w' & E & _ & H & _).
  destruct H as (Hres & _ & _); [vm_compute; discriminate | reflexivity |].
  rewrite E. cbn [fst]. rewrite Hres. reflexivity.
Defined.

(** C7, as stated, fails for a validation error: [createNote] on an empty
    title returns the failure to its caller and leaves the error of the
    hook, and with it the error the coordinator shows, null; so does a
    save of an empty title through the coordinator. *)
Lemma validation_error_not_surfaced :
  let blank := {| title := VStr (lit ""); content := VStr (lit "") |} in
  let r := perform (CreateNote blank) (Sample.world Sample.offline) in
  fst r = Done {| ok := false; status := 400; error := VStr (lit "Title is required.");
                  data := VNull |}
  /\ Async.error (api (snd r)) = VNull
  /\ appError (snd r) = VNull
  /\ appError (snd (handleSaveNote blank (Sample.editing Sample.offline))) = VNull.
Proof. repeat split. Qed.

(** C7, amended: no operation of the hook throws when the id it is given
    can be encoded, and each returns a settled outcome; a failure that
    comes from the request (time-out, network error, HTTP error) becomes
    the error of the hook and the error the coordinator shows; a
    validation failure is returned to the caller and leaves the world,
    and so the current error, as it was. *)
Theorem failures_surface (op : operation) (w : World) :
  encodable op = true ->
  exists res w',
    perform op w = (Done res, w')
    /\ (rejected_locally op = true ->
        ok res = false /\ status res = 400 /\ w' = w)
    /\ (rejected_locally op = false -> ok res = false ->
        Async.error (api w') = error res /\ appError w' = error res).
Proof.
  intros Henc.
  assert (G : forall p o f, (f = (fun r => r) \/ f = listNotes_result) ->
            exists res w',
              withLoading (res <- apiRequest p o ;; ret (f res)) w = (Done res, w')
              /\ (ok res = false ->
                  Async.error (api w') = error res /\ appError w' = error res)).
  { intros p o f Hf. destruct (call_run p o f w) as (res & t & E & R).
    eexists _, _. split; [exact R|]. intros Hok.
    destruct (apiRequest_failure _ _ _ _ _ E) as [_ Hfail].
    assert (F : f res = res /\ ok res = false).
    { destruct Hf as [-> | ->]; [now split | now apply listNotes_result_failure]. }
    destruct F as [F Hres]. rewrite F in *.
    destruct (Hfail Hres) as [_ Ht].
    pose proof (call_error p o t res w Hres Ht) as Herr.
    split; [exact Herr|]. unfold appError. rewrite Herr. now apply or_truthy. }
  destruct (perform_cases op w)
    as [(Hn & _) | [(_ & Hr & e & E) | (_ & Hr & p & o & f & Hf & E)]].
  - congruence.
  - eexists _, _. split; [exact E|]. rewrite Hr.
    split; [intros _; repeat split | discriminate].
  - destruct (G p o f Hf) as (res & w' & R & H).
    exists res, w'. rewrite E, Hr. split; [exact R|].
    split; [discriminate | intros _; exact H].
Qed.

(** A delete while the network is down: the failure is the current
    error. *)
Lemma failures_surface_witness :
  exists res w',
    perform (DeleteNote (VNum 7)) (Sample.editing Sample.offline) = (Done res, w')
    /\ appError w' = error res.
Proof.
  destruct (failures_surface (DeleteNote (VNum 7)) (Sample.editing Sample.offline) eq_refl)
    as (res & w' & R & _ & H).
  exists res, w'. split; [exact R|].
  apply H; [reflexivity|].
  assert (E : fst (perform (DeleteNote (VNum 7)) (Sample.editing Sample.offline))
              = Done res) by now rewrite R.
  vm_compute in E. inversion E. reflexivity.
Defined.

(* ================================================================= *)
(** ** The coordinator *)

Section CoordinatorFacts.

(** The operations of the hook never touch the state of [App]. *)
Lemma perform_app (op : operation) (w : World) :
  app (snd (perform op w)) = app w.
Proof.
  assert (G : forall p o f,
            app (snd (withLoading (res <- apiRequest p o ;; ret (f res)) w)) = app w).
  { intros p o f. destruct (call_run p o f w) as (res & t & _ & R).
    rewrite R. cbn [snd]. apply call_frame. }
  destruct (perform_cases op w)
    as [(_ & _ & E) | [(_ & _ & e & E) | (_ & _ & p & o & f & _ & E)]];
    rewrite E; [reflexivity | reflexivity | apply G].
Qed.

(** A create whose input validates issues exactly one request. *)
Lemma createNote_calls (x : NoteInput) (w : World) :
  valid (validateNote (sanitizeNoteInput x)) = true ->
  exists req res w',
    createNote x w = (Done res, w') /\ calls (plat w') = req :: calls (plat w).
Proof.
  intros Hv. unfold createNote. destruct x as [t c]. cbn [title content].
  rewrite Hv. cbn [negb].
  match goal with
  | |- context [withLoading (bind (apiRequest ?p ?o) _)] =>
      destruct (call_run p o (fun r => r) w) as (res & tm & _ & R);
      exists (build_request p o (plat w)), res; eexists; split; [exact R|];
      apply call_frame
  end.
Qed.

Lemma str_eqb_refl (s : jsstring) : str_eqb s s = true.
Proof. unfold str_eqb. destruct (list_eq_dec N.eq_dec s s); congruence. Qed.

Lemma filter_forallb {A} (f : A -> bool) (l : list A) :
  forallb f (List.filter f l) = true.
Proof.
  induction l as [|a l IH]; simpl; [reflexivity|].
  destruct (f a) eqn:E; simpl; [rewrite E|]; exact IH.
Qed.

(** The placeholder is what the filter on its id removes. *)
Lemma placeholder_filtered (now : Z) :
  idIsNot (tempId_at now) (optimistic_note (tempId_at now)) = false.
Proof.
  unfold idIsNot, optimistic_note, tempId_at, prop. cbn [lookup].
  rewrite str_eqb_refl. cbn [strict_eq]. now rewrite str_eqb_refl.
Qed.

Lemma failed_falsy (res : Outcome) :
  ok res = false \/ truthy (data res) = false ->
  truthy (and_ (VBool (ok res)) (data res)) = false.
Proof.
  unfold and_. cbn [truthy]. destruct (ok res); cbn [truthy]; intros [H|H];
    first [discriminate | exact H | reflexivity].
Qed.

Lemma succeeded_truthy (res : Outcome) :
  ok res = true -> truthy (data res) = true ->
  truthy (and_ (VBool (ok res)) (data res)) = true.
Proof. unfold and_. cbn [truthy]. now intros -> ->. Qed.

End CoordinatorFacts.

Section Handlers.

(** The optimistic step of [handleAddNote]. *)
Lemma handleAddNote_begin_run (w : World) :
  let tempId := tempId_at (clock (plat w)) in
  handleAddNote_begin w
  = (Done tempId,
     setSelectedNote (optimistic_note tempId)
       (setSelectedNoteId tempId
          (setNotes (fun prev => optimistic_note tempId :: prev) (setBusy true w)))).
Proof. reflexivity. Qed.

(** [handleAddNote] is its optimistic step, the create and the rest. *)
Lemma handleAddNote_run (w : World) (res : Outcome) (w1 : World) :
  let tempId := tempId_at (clock (plat w)) in
  let placeholder := optimistic_note tempId in
  createNote {| title := prop placeholder "title"; content := prop placeholder "content" |}
             (snd (handleAddNote_begin w)) = (Done res, w1) ->
  handleAddNote w = handleAddNote_resume tempId res w1.
Proof.
  cbv zeta. intros H. unfold handleAddNote, bind.
  rewrite handleAddNote_begin_run in *. cbv zeta in *. cbn [snd] in H.
  rewrite H. reflexivity.
Qed.

(** What the rest of [handleAddNote] does after a failed create. *)
Lemma handleAddNote_resume_failure (tempId : value) (res : Outcome) (w : World) :
  ok res = false \/ truthy (data res) = false ->
  handleAddNote_resume tempId res w
  = (Done tt, setBusy false (setNotes (List.filter (idIsNot tempId)) w)).
Proof.
  intros H. unfold handleAddNote_resume. rewrite (failed_falsy res H). reflexivity.
Qed.

Lemma handleSaveNote_run (payload : NoteInput) (w : World) :
  truthy (selectedNoteId (app w)) = true ->
  handleSaveNote payload w
  = match updateNote (selectedNoteId (app w)) payload (setBusy true w) with
    | (Done res, w1) => handleSaveNote_resume (selectedNoteId (app w)) res w1
    | (Throw e, w1) => (Throw e, w1)
    end.
Proof.
  intros H. unfold handleSaveNote, bind, gets, modify. rewrite H. reflexivity.
Qed.

End Handlers.

(** C1: a create that fails (the outcome is not ok, or carries no data)
    over a collection of readable entries is attempted once and leaves
    the collection without the placeholder; but the selection is not
    cleared: the selected id is still the temporary id and the hydrated
    note is still the placeholder. *)
Theorem create_failure_rollback (w : World) (res : Outcome) (w1 : World) :
  let tempId := tempId_at (clock (plat w)) in
  let placeholder := optimistic_note tempId in
  createNote {| title := prop placeholder "title"; content := prop placeholder "content" |}
             (snd (handleAddNote_begin w)) = (Done res, w1) ->
  ok res = false \/ truthy (data res) = false ->
  forallb readable (notes (app w)) = true ->
  let w' := snd (handleAddNote w) in
  notes (app w') = List.filter (idIsNot tempId) (notes (app w))
  /\ forallb (idIsNot tempId) (notes (app w')) = true
  /\ (exists req, calls (plat w') = req :: calls (plat w))
  /\ selectedNoteId (app w') = tempId
  /\ selectedNoteId (app w') <> VNull
  /\ selectedNote (app w') = placeholder.
Proof.
  intros tempId placeholder Hc Hfail _ w'.
  pose proof (handleAddNote_run w res w1 Hc) as R. cbv zeta in R.
  fold tempId in R. rewrite (handleAddNote_resume_failure tempId res w1 Hfail) in R.
  assert (Ew : w' = setBusy false (setNotes (List.filter (idIsNot tempId)) w1)).
  { subst w'. now rewrite R. }
  pose proof (perform_app (CreateNote
                {| title := prop placeholder "title"; content := prop placeholder "content" |})
                (snd (handleAddNote_begin w))) as Fa.
  cbn [perform] in Fa. rewrite Hc in Fa. cbn [snd] in Fa.
  rewrite handleAddNote_begin_run in Fa. cbv zeta in Fa. cbn [snd] in Fa.
  assert (En : notes (app w') = List.filter (idIsNot tempId) (notes (app w))).
  { rewrite Ew. cbn [setBusy setNotes on_app app notes]. rewrite Fa.
    cbn [setSelectedNote setSelectedNoteId setNotes setBusy on_app app notes].
    cbn [List.filter]. unfold tempId. rewrite placeholder_filtered. reflexivity. }
  split; [exact En|]. split; [rewrite En; apply filter_forallb|]. split.
  - destruct (createNote_calls
                {| title := prop placeholder "title"; content := prop placeholder "content" |}
                (snd (handleAddNote_begin w)) eq_refl) as (req & res' & w1' & Hc' & Hcalls).
    rewrite Hc in Hc'. inversion Hc'; subst res' w1'.
    exists req. rewrite Ew. cbn [setBusy setNotes on_app plat]. exact Hcalls.
  - rewrite Ew. cbn [setBusy setNotes on_app app selectedNoteId selectedNote].
    rewrite Fa. repeat split. discriminate.
Qed.

(** The create of a first note while the network is down. *)
Lemma create_failure_rollback_witness :
  let w' := snd (handleAddNote (Sample.world Sample.offline)) in
  notes (app w') = []
  /\ selectedNoteId (app w') = VStr (lit "temp-1700000000000").
Proof.
  destruct (create_failure_rollback (Sample.world Sample.offline)
              {| ok := false; status := 0; error := VStr (lit "Network error");
                 data := VNull |}
              (snd (createNote
                      {| title := VStr (lit "Untitled note"); content := VStr (lit "") |}
                      (snd (handleAddNote_begin (Sample.world Sample.offline)))))
              eq_refl (or_introl eq_refl) eq_refl) as (Hn & _ & _ & Hs & _).
  cbv zeta. split; [exact Hn | exact Hs].
Defined.

(** C6: a save whose update fails (the outcome is not ok, or carries no
    data, or the update threw) changes neither the collection nor the
    selected id nor the hydrated note; a save whose update succeeds,
    over a collection of readable entries, replaces the hydrated note
    and each entry of the collection that has the selected id by the
    note the backend returned, and nothing else. *)
Theorem save_frame (payload : NoteInput) (w : World) (r : completion Outcome) (w1 : World) :
  truthy (selectedNoteId (app w)) = true ->
  updateNote (selectedNoteId (app w)) payload (setBusy true w) = (r, w1) ->
  let selected := selectedNoteId (app w) in
  let w' := snd (handleSaveNote payload w) in
  let unchanged :=
    notes (app w') = notes (app w)
    /\ selectedNoteId (app w') = selectedNoteId (app w)
    /\ selectedNote (app w') = selectedNote (app w) in
  match r with
  | Done res =>
      (ok res = false \/ truthy (data res) = false -> unchanged)
      /\ (ok res = true -> truthy (data res) = true ->
          forallb readable (notes (app w)) = true ->
          selectedNote (app w') = data res
          /\ notes (app w')
             = map (fun n => if strict_eq (prop n "id") selected then data res else n)
                   (notes (app w))
          /\ selectedNoteId (app w') = selected)
  | Throw _ => unchanged
  end.
Proof.
  intros Hsel Hu selected w' unchanged.
  pose proof (perform_app (UpdateNote selected payload) (setBusy true w)) as Fa.
  cbn [perform] in Fa. unfold selected in Fa. rewrite Hu in Fa. cbn [snd] in Fa.
  change (app (setBusy true w)) with
    {| notes := notes (app w); selectedNoteId := selectedNoteId (app w);
       selectedNote := selectedNote (app w); busy := true;
       listLoading := listLoading (app w); listError := listError (app w);
       filter := filter (app w) |} in Fa.
  assert (R : handleSaveNote payload w
              = match r with
                | Done res => handleSaveNote_resume selected res w1
                | Throw e => (Throw e, w1)
                end).
  { rewrite (handleSaveNote_run payload w Hsel), Hu. reflexivity. }
  subst w' unchanged. rewrite R. destruct r as [res|e].
  - split.
    + intros Hfail. unfold handleSaveNote_resume.
      rewrite (failed_falsy res Hfail).
      cbn [when bind ret modify snd setBusy on_app app notes selectedNoteId selectedNote].
      rewrite Fa. repeat split.
    + intros Hok Hd _. unfold handleSaveNote_resume.
      rewrite (succeeded_truthy res Hok Hd).
      cbn [when bind ret modify snd setBusy setNotes setSelectedNote on_app app
           notes selectedNoteId selectedNote].
      rewrite Fa. repeat split.
  - cbn [snd]. rewrite Fa. repeat split.
Qed.

(** Saving note 7 against a backend that answers with the saved note:
    the hydrated note and the one entry of the collection are replaced. *)
Lemma save_frame_witness :
  let w' := snd (handleSaveNote
                   {| title := VStr (lit "Plan"); content := VStr (lit "buy milk") |}
                   (Sample.editing (Sample.answering 25 Sample.savedNote))) in
  selectedNote (app w') = Sample.note7 /\ notes (app w') = [Sample.note7].
Proof.
  pose proof (save_frame
                {| title := VStr (lit "Plan"); content := VStr (lit "buy milk") |}
                (Sample.editing (Sample.answering 25 Sample.savedNote))
                (Done {| ok := true; status := 200; error := VNull; data := Sample.note7 |})
                _ eq_refl eq_refl) as H.
  cbv zeta in H. destruct H as [_ H].
  destruct (H eq_refl eq_refl eq_refl) as (Hs & Hn & _).
  cbv zeta. split; [exact Hs | exact Hn].
Defined.

(* ================================================================= *)
(** ** More on validation *)

(** X1: a note passes [sanitizeNoteInput] then [validateNote] exactly
    when its trimmed title has between 1 and 200 code units and its
    trimmed content at most 10000, whatever values the two fields hold
    (a missing or null field counts as the empty string). *)
Theorem validation_exact (x : NoteInput) :
  valid (validateNote (sanitizeNoteInput x)) = true
  <-> 1 <= strlen (trim (text_of (title x))) <= 200
      /\ strlen (trim (text_of (content x))) <= 10000.
Proof.
  rewrite sanitize_strings, validateNote_strings. unfold MAX_TITLE, MAX_CONTENT.
  change (String_ (nullish (default (title x) (VStr [])) (VStr [])))
    with (text_of (title x)).
  change (String_ (nullish (default (content x) (VStr [])) (VStr [])))
    with (text_of (content x)).
  rewrite !andb_true_iff, Z.ltb_lt, !Z.leb_le. lia.
Qed.

(** X2: the messages of [validateNote]: an empty title is required, a
    title above 200 code units is too long (200 itself passes), a content
    above 10000 is too long; the title and the content are judged
    independently, and the note is valid exactly when neither has a
    message. *)
Theorem validation_messages (x : NoteInput) :
  let t := text_of (title x) in
  let c := text_of (content x) in
  let e := errors (validateNote x) in
  err_title e
  = (if strlen t =? 0 then Some (lit "Title is required.")
     else if 200 <? strlen t then Some (lit "Title must be at most 200 characters.")
     else None)
  /\ err_content e
     = (if 10000 <? strlen c then Some (lit "Content must be at most 10000 characters.")
        else None)
  /\ (valid (validateNote x) = true <-> err_title e = None /\ err_content e = None).
Proof.
  cbv zeta. unfold validateNote. cbv zeta. fold (text_of (title x)). fold (text_of (content x)).
  unfold MAX_TITLE, MAX_CONTENT. rewrite !Z.gtb_ltb.
  destruct (strlen (text_of (title x)) =? 0) eqn:E0;
    destruct (200 <? strlen (text_of (title x))) eqn:E1;
    destruct (10000 <? strlen (text_of (content x))) eqn:E2;
    cbn [valid errors keys_length set_title set_content no_errors err_title err_content];
    try (apply Z.eqb_eq in E0; apply Z.ltb_lt in E1; lia);
    (split; [reflexivity | split; [reflexivity|]]);
    (split; [intros H; try discriminate H; split; reflexivity
            | intros [H1 H2]; try discriminate H1; try discriminate H2; reflexivity]).
Qed.

(* ================================================================= *)
(** ** More on the transport *)

Section TransportMore.

(** A request answered no later than the deadline is handled by the
    [try] block or, when [fetch] rejected, by the [catch] block; the
    clock stands at the arrival. *)
Lemma apiRequest_in_time (path : jsstring) (o : Options) (w : World) :
  in_time path o w ->
  apiRequest path o w
  = (Done (match outcome (network_of path o w) with
           | Fulfilled r => on_response r
           | Rejected err => on_error err
           end),
     request_done path o (clock (plat w) + Z.max 0 (latency (network_of path o w))) w).
Proof.
  unfold in_time. intros H. rewrite apiRequest_run. cbv zeta.
  replace (_ <=? _) with true by (symmetry; apply Z.leb_le; lia).
  destruct (outcome (network_of path o w)); reflexivity.
Qed.

(** Setting a header: it is then what a lookup finds, and the other
    headers are as before. *)
Lemma header_assign1 (a : list (jsstring * jsstring)) (k v k' : jsstring) :
  header k' (assign1 a k v) = if str_eqb k' k then Some v else header k' a.
Proof.
  unfold header. induction a as [|[k0 v0] a IH]; cbn [assign1 List.find fst snd].
  - destruct (str_eqb k' k); reflexivity.
  - destruct (str_eqb k k0) eqn:E; cbn [List.find fst snd].
    + unfold str_eqb in E. destruct (list_eq_dec N.eq_dec k k0); [subst k0|discriminate].
      destruct (str_eqb k' k); reflexivity.
    + destruct (str_eqb k' k0) eqn:E'; [|exact IH].
      unfold str_eqb in E'. destruct (list_eq_dec N.eq_dec k' k0); [subst k0|discriminate].
      replace (str_eqb k' k) with false; [reflexivity|].
      unfold str_eqb in *. destruct (list_eq_dec N.eq_dec k' k); [subst|reflexivity].
      destruct (list_eq_dec N.eq_dec k k); congruence.
Qed.

Lemma header_snoc (l : list (jsstring * jsstring)) (k k0 v0 : jsstring) :
  header k (l ++ [(k0, v0)])
  = match header k l with
    | Some v => Some v
    | None => if str_eqb k k0 then Some v0 else None
    end.
Proof.
  unfold header. induction l as [|[k1 v1] l IHl]; cbn [List.app List.find fst snd].
  - destruct (str_eqb k k0); reflexivity.
  - destruct (str_eqb k k1); [reflexivity | exact IHl].
Qed.

Lemma header_spread (a b : list (jsstring * jsstring)) (k : jsstring) :
  header k (spread a b)
  = match header k (rev b) with
    | Some v => Some v
    | None => header k a
    end.
Proof.
  unfold spread. revert a. induction b as [|[k0 v0] b IH]; intros a; cbn [fold_left fst snd].
  - reflexivity.
  - rewrite IH, header_assign1. cbn [rev]. rewrite header_snoc.
    destruct (header k (rev b)); [reflexivity|].
    destruct (str_eqb k k0); reflexivity.
Qed.

End TransportMore.

(** X3: the error of a response outside 200-299 that came in time is the
    first truthy of the fields detail, message and error of the parsed
    body, and the text "Request failed with status N" when there is none;
    so a body that is empty, unreadable, no JSON or no object gives that
    text.  The status is the one of the response and the data is null. *)
Theorem http_error_message (path : jsstring) (o : Options) (w : World) (r : Response) :
  in_time path o w ->
  outcome (network_of path o w) = Fulfilled r ->
  res_ok r = false ->
  let d := prop (read_body r) "detail" in
  let m := prop (read_body r) "message" in
  let e := prop (read_body r) "error" in
  let message :=
    if truthy d then d else if truthy m then m else if truthy e then e
    else generic_message (res_status r) in
  fst (apiRequest path o w)
  = Done {| ok := false; status := res_status r; error := message; data := VNull |}
  /\ ((forall fields, read_body r <> VObj fields) ->
      message = generic_message (res_status r)).
Proof.
  intros Ht Hr Hok d m e message.
  rewrite (apiRequest_in_time path o w Ht), Hr. cbn [fst].
  unfold on_response. rewrite Hok. cbn [negb].
  assert (E : failure_message r (read_body r) = message).
  { subst message d m e. unfold failure_message. fold (generic_message (res_status r)).
    destruct (read_body r) as [| |b|n|s|xs|fields]; cbn [prop].
    7: { unfold and_. cbn [truthy]. unfold or_.
         destruct (truthy (lookup (lit "detail") fields)) eqn:Td;
           destruct (truthy (lookup (lit "message") fields)) eqn:Tm;
           destruct (truthy (lookup (lit "error") fields)) eqn:Te;
           repeat (first [rewrite Td | rewrite Tm | rewrite Te]; cbv iota);
           reflexivity. }
    all: unfold and_;
      match goal with
      | |- or_ (if ?c then _ else _) _ = _ => destruct c eqn:T
      end; try discriminate T;
      (transitivity (generic_message (res_status r));
       [apply or_falsy; first [reflexivity | exact T] | reflexivity]). }
  rewrite E. split; [reflexivity|].
  intros Hobj. subst message d m e.
  destruct (read_body r); try reflexivity. now destruct (Hobj fields).
Qed.

Lemma http_error_message_witness :
  fst (apiRequest (lit "/notes") defaults
         (Sample.world (Sample.answering 3 Sample.serverError)))
  = Done {| ok := false; status := 500; error := generic_message 500; data := VNull |}.
Proof.
  destruct (http_error_message (lit "/notes") defaults
              (Sample.world (Sample.answering 3 Sample.serverError))
              Sample.serverError
              ltac:(vm_compute; discriminate) eq_refl eq_refl) as [H _].
  exact H.
Defined.

(** X4: the data of a 2xx response that came in time is null when the
    body is empty or cannot be read, the parsed value when the text is
    JSON, and the text itself when it is not; the error is null. *)
Theorem success_body (path : jsstring) (o : Options) (w : World) (r : Response) :
  in_time path o w ->
  outcome (network_of path o w) = Fulfilled r ->
  res_ok r = true ->
  fst (apiRequest path o w)
  = Done {| ok := true; status := res_status r; error := VNull;
            data := match res_text r with
                    | None | Some [] => VNull
                    | Some text => match res_json r with
                                   | Some v => v
                                   | None => VStr text
                                   end
                    end |}.
Proof.
  intros Ht Hr Hok. rewrite (apiRequest_in_time path o w Ht), Hr. cbn [fst].
  unfold on_response, read_body. rewrite Hok. cbn [negb].
  destruct (res_text r) as [[|c t]|]; reflexivity.
Qed.

Lemma success_body_witness :
  fst (apiRequest (lit "/ping") defaults
         (Sample.world (Sample.answering 3 Sample.plainText)))
  = Done {| ok := true; status := 200; error := VNull; data := VStr (lit "pong") |}.
Proof.
  exact (success_body (lit "/ping") defaults
           (Sample.world (Sample.answering 3 Sample.plainText)) Sample.plainText
           ltac:(vm_compute; discriminate) eq_refl eq_refl).
Defined.

(** X5: when [fetch] rejects before the deadline, the outcome has status
    0 and no data, and its error is "Network error" unless the rejection
    is an object named AbortError, which reads "Request timed out". *)
Theorem transport_failure (path : jsstring) (o : Options) (w : World) (err : value) :
  in_time path o w ->
  outcome (network_of path o w) = Rejected err ->
  fst (apiRequest path o w)
  = Done {| ok := false; status := 0;
            error := VStr (if truthy err
                              && strict_eq (prop err "name") (VStr (lit "AbortError"))
                           then lit "Request timed out" else lit "Network error");
            data := VNull |}.
Proof.
  intros Ht Hr. rewrite (apiRequest_in_time path o w Ht), Hr. cbn [fst].
  unfold on_error, and_. destruct (truthy err) eqn:E; cbn [andb truthy].
  - reflexivity.
  - now rewrite E.
Qed.

Lemma transport_failure_witness :
  fst (apiRequest (lit "/notes") defaults (Sample.world Sample.offline))
  = Done {| ok := false; status := 0; error := VStr (lit "Network error");
            data := VNull |}.
Proof.
  exact (transport_failure (lit "/notes") defaults (Sample.world Sample.offline) _
           ltac:(vm_compute; discriminate) eq_refl).
Defined.

(** X6: the headers of the request that [apiRequest] issues: a header
    the caller gives is sent with the caller's value (the last one
    given), Content-Type included; without a Content-Type of the caller
    it is application/json; nothing else is sent. *)
Theorem request_headers (path : jsstring) (o : Options) (w : World) (k : jsstring) :
  exists res w' req,
    apiRequest path o w = (Done res, w')
    /\ calls (plat w') = req :: calls (plat w)
    /\ header k (req_headers req)
       = match header k (rev (headers o)) with
         | Some v => Some v
         | None => if str_eqb k (lit "Content-Type")
                   then Some (lit "application/json") else None
         end.
Proof.
  destruct (apiRequest_done path o w) as (res & t & E & _).
  exists res, (request_done path o t w), (build_request path o (plat w)).
  split; [exact E|]. split; [reflexivity|].
  unfold build_request. cbn [req_headers]. rewrite header_spread.
  destruct (header k (rev (headers o))); [reflexivity|].
  unfold header. cbn [List.find fst snd].
  destruct (str_eqb k (lit "Content-Type")); reflexivity.
Qed.

(** X7: a path without its leading slash is given one: [apiRequest]
    behaves on it as on the path with the slash, and the URL is the
    origin with port 3001, a slash and the path. *)
Theorem path_slash (path : jsstring) (o : Options) (w : World) :
  startsWithSlash path = false ->
  apiRequest path o w = apiRequest (lit "/" ++ path) o w
  /\ req_url (build_request path o (plat w)) = base (plat w) ++ lit "/" ++ path.
Proof.
  intros H.
  assert (E : forall p, build_request path o p = build_request (lit "/" ++ path) o p).
  { intros p. unfold build_request. rewrite H. reflexivity. }
  split.
  - rewrite !apiRequest_run. cbv zeta. unfold network_of, request_done, on_plat.
    rewrite !E. reflexivity.
  - unfold build_request, base. cbn [req_url]. rewrite H. reflexivity.
Qed.

Lemma path_slash_witness :
  req_url (build_request (lit "notes") defaults (Sample.platform Sample.offline))
  = lit "http://localhost:3001/notes".
Proof.
  exact (proj2 (path_slash (lit "notes") defaults (Sample.world Sample.offline) eq_refl)).
Defined.

(** X8: whenever a call of [apiRequest] settles, it has returned an
    outcome and not thrown; it has issued exactly one request, left the
    state of the hook and of [App] alone, used one timer id and left no
    timer pending that was not pending before. *)
Theorem request_frame (path : jsstring) (o : Options) (w : World)
        (r : completion Outcome) (w' : World) :
  apiRequest path o w = (r, w') ->
  (exists res, r = Done res)
  /\ api w' = api w /\ app w' = app w
  /\ calls (plat w') = build_request path o (plat w) :: calls (plat w)
  /\ next_timer (plat w') = next_timer (plat w) + 1
  /\ (forall t, In t (timers (plat w')) -> In t (timers (plat w))).
Proof.
  intros H. destruct (apiRequest_done path o w) as (res & t & E & _).
  rewrite E in H. inversion H; subst r w'.
  split; [now exists res|]. repeat split.
  intros x Hx. unfold request_done, on_plat in Hx. cbn [plat timers] in Hx.
  now apply filter_In in Hx.
Qed.

Lemma request_frame_witness :
  let w := Sample.editing (Sample.answering 3 Sample.serverError) in
  let w' := snd (apiRequest (lit "/notes") defaults w) in
  app w' = app w /\ List.length (calls (plat w')) = 1%nat.
Proof.
  intros w w'.
  destruct (request_frame (lit "/notes") defaults w _ w' (surjective_pairing _))
    as (_ & _ & Ha & Hc & _).
  split; [exact Ha | now rewrite Hc].
Defined.

(* ================================================================= *)
(** ** More on the hook *)

Section HookMore.

Lemma bind_ret {A B} (a : A) (k : A -> M B) (w : World) : bind (ret a) k w = k a w.
Proof. reflexivity. Qed.

Lemma bind_throw {A B} (e : value) (k : A -> M B) (w : World) :
  bind (throw e) k w = (Throw e, w).
Proof. reflexivity. Qed.

Lemma call_calls (p : jsstring) (o : Options) (f : Outcome -> Outcome) (w : World) :
  calls (plat (snd (withLoading (res <- apiRequest p o ;; ret (f res)) w)))
  = build_request p o (plat w) :: calls (plat w).
Proof.
  destruct (call_run p o f w) as (res & t & _ & R). rewrite R. cbn [snd].
  apply call_frame.
Qed.

(** The requests an operation adds to the log: the one of [request_of],
    or none. *)
Lemma perform_calls (op : operation) (w : World) :
  calls (plat (snd (perform op w)))
  = match request_of op (plat w) with
    | Some req => req :: calls (plat w)
    | None => calls (plat w)
    end.
Proof.
  destruct op as [|id|x|id x|id]; cbn [perform request_of rejected_locally].
  - unfold listNotes. rewrite call_calls. reflexivity.
  - unfold getNote, safeId_of.
    destruct (encodeURIComponent (String_ id)) as [e|];
      [rewrite bind_ret | rewrite bind_throw; reflexivity].
    rewrite (call_calls _ _ (fun r => r)). reflexivity.
  - unfold createNote. destruct x as [t c]. cbn [title content].
    destruct (valid (validateNote (sanitizeNoteInput {| title := t; content := c |})));
      cbn [negb]; [|reflexivity].
    rewrite (call_calls _ _ (fun r => r)). reflexivity.
  - unfold updateNote, safeId_of. destruct x as [t c]. cbn [title content].
    destruct (valid (validateNote (sanitizeNoteInput {| title := t; content := c |})));
      cbn [negb]; [|reflexivity].
    destruct (encodeURIComponent (String_ id)) as [e|];
      [rewrite bind_ret | rewrite bind_throw; reflexivity].
    rewrite (call_calls _ _ (fun r => r)). reflexivity.
  - unfold deleteNote, safeId_of.
    destruct (encodeURIComponent (String_ id)) as [e|];
      [rewrite bind_ret | rewrite bind_throw; reflexivity].
    rewrite (call_calls _ _ (fun r => r)). reflexivity.
Qed.

(** The hook state after an operation, in terms of the one before. *)
Lemma perform_api (op : operation) (w : World) :
  (snd (perform op w) = w)
  \/ (exists res, fst (perform op w) = Done res
      /\ inFlight (api (snd (perform op w))) = Z.max 0 (inFlight (api w))
      /\ loading (api (snd (perform op w)))
         = (if inFlight (api w) <=? 0 then false else true)
      /\ Async.error (api (snd (perform op w)))
         = (if ok res then Async.error (api w)
            else or_ (error res) (VStr (lit "Unknown error")))).
Proof.
  destruct (perform_cases op w)
    as [(_ & _ & E) | [(_ & _ & e & E) | (_ & _ & p & o & f & _ & E)]];
    rewrite E; [now left | now left | right].
  destruct (call_run p o f w) as (res & t & _ & R). rewrite R. cbn [fst snd].
  exists (f res). split; [reflexivity|].
  destruct (settle_inFlight (Done (f res)) (request_done p o t (withLoading_enter w)))
    as (E1 & E2 & _).
  rewrite E1, E2, settle_error.
  change (inFlight (api (request_done p o t (withLoading_enter w))))
    with (inFlight (api w) + 1).
  change (loading (api (request_done p o t (withLoading_enter w)))) with true.
  change (Async.error (api (request_done p o t (withLoading_enter w))))
    with (Async.error (api w)).
  replace (inFlight (api w) + 1 - 1) with (inFlight (api w)) by lia.
  repeat split.
Qed.

End HookMore.

(** X9: an operation of the hook that succeeds leaves the error of the
    hook as it was: an earlier failure stays the current error until
    [clearError]. *)
Theorem success_keeps_error (op : operation) (w w' : World) (res : Outcome) :
  perform op w = (Done res, w') ->
  ok res = true ->
  Async.error (api w') = Async.error (api w).
Proof.
  intros H Hok. destruct (perform_api op w) as [E | (res' & Hr & _ & _ & He)];
    rewrite H in *; cbn [fst snd] in *.
  - now subst w'.
  - inversion Hr; subst res'. now rewrite Hok in He.
Qed.

(** A list that loads after a delete failed: the failure is still the
    error. *)
Lemma success_keeps_error_witness :
  let w1 := snd (perform (DeleteNote (VNum 7)) (Sample.editing Sample.offline)) in
  let online :=
    on_plat (fun p => {| clock := clock p; timers := timers p;
                         next_timer := next_timer p; protocol := protocol p;
                         hostname := hostname p; calls := calls p;
                         backend := Sample.answering 20 Sample.wrappedList |}) w1 in
  Async.error (api (snd (perform ListNotes online))) = VStr (lit "Network error").
Proof.
  intros w1 online.
  rewrite (success_keeps_error ListNotes online (snd (perform ListNotes online))
             {| ok := true; status := 200; error := VNull; data := VArr [] |}
             eq_refl eq_refl).
  reflexivity.
Defined.

(** X10: an operation of the hook that has run to its end, whether it
    returned or threw, leaves the in-flight counter and the loading flag
    as it found them, given that the flag followed the counter before:
    from the idle state every operation comes back to the idle state. *)
Theorem operation_restores_counter (op : operation) (w : World) :
  coherent (api w) ->
  let w' := snd (perform op w) in
  inFlight (api w') = inFlight (api w) /\ loading (api w') = loading (api w).
Proof.
  intros [H0 H1] w'. subst w'.
  destruct (perform_api op w) as [E | (res & _ & Ei & El & _)].
  - rewrite E. split; reflexivity.
  - rewrite Ei, El. split; [lia|].
    destruct (inFlight (api w) <=? 0) eqn:L.
    + apply Z.leb_le in L. destruct (loading (api w)); [|reflexivity].
      destruct H1 as [H1 _]. specialize (H1 eq_refl). lia.
    + apply Z.leb_gt in L. symmetry. apply H1. exact L.
Qed.

Lemma operation_restores_counter_witness :
  let w' := snd (perform ListNotes (Sample.world Sample.offline)) in
  inFlight (api w') = 0 /\ loading (api w') = false.
Proof.
  exact (operation_restores_counter ListNotes (Sample.world Sample.offline)
           (conj (Z.le_refl 0)
                 (conj (fun H : false = true => False_ind _ (Bool.diff_false_true H))
                       (fun H : 0 < 0 => False_ind _ (Z.lt_irrefl 0 H))))).
Defined.

(** X11: [getNote], [deleteNote] and an [updateNote] whose input
    validates throw a URIError when the id holds a lone surrogate, before
    any request and before the counter is touched: the world is as it
    was. *)
Theorem unencodable_id_throws (op : operation) (w : World) :
  encodable op = false ->
  perform op w = (Throw URIError, w).
Proof.
  intros H. destruct (perform_cases op w) as [(_ & _ & E) | [(H' & _) | (H' & _)]];
    [exact E | congruence | congruence].
Qed.

Lemma unencodable_id_throws_witness :
  perform (DeleteNote (VStr [55357%N])) (Sample.editing Sample.offline)
  = (Throw URIError, Sample.editing Sample.offline).
Proof.
  exact (unencodable_id_throws (DeleteNote (VStr [55357%N]))
           (Sample.editing Sample.offline) eq_refl).
Defined.

(** X12: what each operation of the hook sends: [listNotes] a GET of
    /notes, [getNote] and [deleteNote] a GET and a DELETE of
    /notes/<encoded id> with no body, [createNote] a POST of /notes and
    [updateNote] a PUT of /notes/<encoded id> with the sanitized title
    and content as JSON body; always to port 3001 of the page's host
    with Content-Type application/json; exactly one request, and none
    when the input does not validate or the id cannot be encoded. *)
Theorem operation_request (op : operation) (w : World) :
  calls (plat (snd (perform op w)))
  = match request_of op (plat w) with
    | Some req => req :: calls (plat w)
    | None => calls (plat w)
    end.
Proof. apply perform_calls. Qed.

Section Sent.

Lemma cons_neq_self {A} (a : A) (l : list A) : l <> a :: l.
Proof.
  intros H. apply (f_equal (@List.length A)) in H. cbn in H. lia.
Qed.

(** The sanitized input that validates: two trimmed strings within the
    limits. *)
Lemma sanitized_valid (x : NoteInput) :
  valid (validateNote (sanitizeNoteInput x)) = true ->
  exists t c,
    sanitizeNoteInput x = {| title := VStr t; content := VStr c |}
    /\ 1 <= strlen t <= 200 /\ strlen c <= 10000
    /\ startsWithSpace t = false /\ endsWithSpace t = false
    /\ startsWithSpace c = false /\ endsWithSpace c = false.
Proof.
  rewrite sanitize_strings, validateNote_strings. unfold MAX_TITLE, MAX_CONTENT.
  rewrite !andb_true_iff, Z.ltb_lt, !Z.leb_le. intros [[H1 H2] H3].
  eexists _, _. split; [reflexivity|].
  repeat split; first [lia | apply trim_head | apply trim_tail].
Qed.

End Sent.

(** X13: whatever input [createNote] or [updateNote] is given, a request
    it issues carries as body the object of a title and a content that
    are strings without white space at either end, the title of 1 to
    200 code units and the content of at most 10000. *)
Theorem sent_notes_valid (op : operation) (x : NoteInput) (w : World) (req : Request) :
  op = CreateNote x \/ (exists id, op = UpdateNote id x) ->
  calls (plat (snd (perform op w))) = req :: calls (plat w) ->
  exists t c,
    req_body req
    = Some (Stringified (VObj [(lit "title", VStr t); (lit "content", VStr c)]))
    /\ 1 <= strlen t <= 200 /\ strlen c <= 10000
    /\ startsWithSpace t = false /\ endsWithSpace t = false
    /\ startsWithSpace c = false /\ endsWithSpace c = false.
Proof.
  intros Hop H. rewrite perform_calls in H.
  assert (G : forall r, request_of op (plat w) = Some r ->
              valid (validateNote (sanitizeNoteInput x)) = true
              /\ req_body r = Some (Stringified (payload_value (sanitizeNoteInput x)))).
  { intros r Hr. destruct Hop as [-> | [id ->]]; cbn [request_of rejected_locally] in Hr;
      destruct (valid (validateNote (sanitizeNoteInput x))); cbn [negb] in Hr;
      try discriminate Hr.
    - inversion Hr. split; reflexivity.
    - destruct (encodeURIComponent (String_ id)); [|discriminate Hr].
      inversion Hr. split; reflexivity. }
  destruct (request_of op (plat w)) as [r|].
  - inversion H; subst r. destruct (G req eq_refl) as [Hv Hb].
    destruct (sanitized_valid x Hv) as (t & c & Es & Hrest).
    exists t, c. split; [|exact Hrest]. rewrite Hb, Es. reflexivity.
  - now destruct (cons_neq_self req (calls (plat w))).
Qed.

Lemma sent_notes_valid_witness :
  exists t c,
    req_body (build_request (lit "/notes")
                (with_method_body "POST"
                   (payload_value (sanitizeNoteInput
                      {| title := VStr (lit "  Plan "); content := VNull |})))
                (Sample.platform Sample.offline))
    = Some (Stringified (VObj [(lit "title", VStr t); (lit "content", VStr c)]))
    /\ 1 <= strlen t <= 200.
Proof.
  destruct (sent_notes_valid
              (CreateNote {| title := VStr (lit "  Plan "); content := VNull |})
              {| title := VStr (lit "  Plan "); content := VNull |}
              (Sample.world Sample.offline) _ (or_introl eq_refl) eq_refl)
    as (t & c & Hb & Ht & _).
  exists t, c. split; [exact Hb | exact Ht].
Defined.

(* ================================================================= *)
(** ** Percent-encoding of ids *)

Section Encoding.

Local Open Scope N_scope.

Ltac divmod := zify; Z.to_euclidean_division_equations; lia.

Lemma percent_safe (b : N) : b < 256 -> forallb isPathSafe (percent b) = true.
Proof.
  intros Hb.
  assert (T : forallb (fun b => forallb isPathSafe (percent b))
                      (map N.of_nat (seq 0 256)) = true) by (vm_compute; reflexivity).
  rewrite forallb_forall in T. apply T.
  rewrite <- (N2Nat.id b). apply in_map, in_seq. lia.
Qed.

Lemma utf8_bytes (cp : N) : cp < 1114112 -> Forall (fun b => b < 256) (utf8 cp).
Proof.
  intros H. unfold utf8.
  destruct (cp <? 128) eqn:E1; [apply N.ltb_lt in E1; repeat constructor; lia|].
  destruct (cp <? 2048) eqn:E2; [apply N.ltb_lt in E2; repeat constructor; divmod|].
  destruct (cp <? 65536) eqn:E3; [apply N.ltb_lt in E3; repeat constructor; divmod|].
  repeat constructor; divmod.
Qed.

Lemma escape_safe (cp : N) : cp < 1114112 -> forallb isPathSafe (escape cp) = true.
Proof.
  intros H. unfold escape. pose proof (utf8_bytes cp H) as F.
  induction F as [|b l Hb _ IH]; cbn [flat_map]; [reflexivity|].
  rewrite forallb_app, (percent_safe b Hb), IH. reflexivity.
Qed.

Lemma surrogate_pair_range (c d : N) :
  isLead c = true -> isTrail d = true ->
  (c - 55296) * 1024 + (d - 56320) + 65536 < 1114112.
Proof.
  unfold isLead, isTrail. rewrite !andb_true_iff, !N.leb_le. lia.
Qed.

Lemma encode_safe_bounded (n : nat) :
  forall s e, (List.length s <= n)%nat ->
    wellFormedUnits s = true ->
    encodeURIComponent s = Some e ->
    forallb isPathSafe e = true.
Proof.
  induction n as [|n IH]; intros s e Hn Hw He.
  - destruct s; [|cbn in Hn; lia]. cbn in He. inversion He. reflexivity.
  - destruct s as [|c r]; [cbn in He; inversion He; reflexivity|].
    cbn [wellFormedUnits forallb] in Hw. apply andb_true_iff in Hw.
    destruct Hw as [Hc Hr]. apply N.ltb_lt in Hc. cbn [List.length] in Hn.
    cbn [encodeURIComponent] in He.
    destruct (isUnreserved c) eqn:U.
    + destruct (encodeURIComponent r) as [e'|] eqn:Er; [|discriminate He].
      inversion He. cbn [forallb]. unfold isPathSafe at 1. rewrite U. cbn [orb].
      apply (IH r e'); [lia | exact Hr | exact Er].
    + destruct (isTrail c); [discriminate He|].
      destruct (isLead c) eqn:L.
      * destruct r as [|d r']; [discriminate He|].
        destruct (isTrail d) eqn:T; [|discriminate He].
        destruct (encodeURIComponent r') as [e'|] eqn:Er; [|discriminate He].
        inversion He. rewrite forallb_app.
        rewrite (escape_safe _ (surrogate_pair_range c d L T)). cbn [andb].
        cbn [forallb] in Hr. apply andb_true_iff in Hr. destruct Hr as [_ Hr'].
        apply (IH r' e'); [cbn [List.length] in Hn; lia | exact Hr' | exact Er].
      * destruct (encodeURIComponent r) as [e'|] eqn:Er; [|discriminate He].
        inversion He. rewrite forallb_app. rewrite escape_safe by lia. cbn [andb].
        apply (IH r e'); [lia | exact Hr | exact Er].
Qed.

Lemma encode_safe (s e : jsstring) :
  wellFormedUnits s = true -> encodeURIComponent s = Some e ->
  forallb isPathSafe e = true.
Proof. apply (encode_safe_bounded (List.length s)). lia. Qed.

End Encoding.

(** X14: the id in the path of a request of [getNote], [updateNote] or
    [deleteNote] is one segment: the URL is the origin, /notes/ and a
    text made only of unreserved characters, percent signs and
    hexadecimal digits (no slash, question mark or hash), whatever the id
    (of code units below 2^16) holds. *)
Theorem id_segment_safe (op : operation) (id : value) (w : World) (req : Request) :
  path_id op = Some id ->
  wellFormedUnits (String_ id) = true ->
  calls (plat (snd (perform op w))) = req :: calls (plat w) ->
  exists e,
    req_url req = base (plat w) ++ lit "/notes/" ++ e
    /\ forallb isPathSafe e = true.
Proof.
  intros Hp Hw H. rewrite perform_calls in H.
  assert (G : forall r, request_of op (plat w) = Some r ->
              exists e, encodeURIComponent (String_ id) = Some e
                        /\ req_url r = base (plat w) ++ lit "/notes/" ++ e).
  { intros r Hr.
    destruct op as [|id'|x|id' x|id']; cbn [path_id] in Hp; try discriminate Hp;
      cbn [request_of] in Hr.
    - inversion Hp; subst id'.
      destruct (encodeURIComponent (String_ id)) as [e|]; [|discriminate Hr].
      inversion Hr. now exists e.
    - destruct (rejected_locally (UpdateNote id' x)); [discriminate Hp|].
      inversion Hp; subst id'.
      destruct (encodeURIComponent (String_ id)) as [e|]; [|discriminate Hr].
      inversion Hr. now exists e.
    - inversion Hp; subst id'.
      destruct (encodeURIComponent (String_ id)) as [e|]; [|discriminate Hr].
      inversion Hr. now exists e. }
  destruct (request_of op (plat w)) as [r|].
  - inversion H; subst r. destruct (G req eq_refl) as (e & He & Hu).
    exists e. split; [exact Hu | exact (encode_safe _ _ Hw He)].
  - now destruct (cons_neq_self req (calls (plat w))).
Qed.

Lemma id_segment_safe_witness :
  exists e,
    req_url (build_request (lit "/notes/a%2Fb%3Fc") (with_method "GET")
               (Sample.platform Sample.offline))
    = base (Sample.platform Sample.offline) ++ lit "/notes/" ++ e
    /\ forallb isPathSafe e = true.
Proof.
  exact (id_segment_safe (GetNote (VStr (lit "a/b?c"))) (VStr (lit "a/b?c"))
           (Sample.world Sample.offline) _ eq_refl eq_refl eq_refl).
Defined.

(* ================================================================= *)
(** ** More on the coordinator *)

Section CoordinatorMore.

(** An operation that reached the network and failed: its error is
    truthy and is now the error of the hook. *)
Lemma perform_failure (op : operation) (w w' : World) (res : Outcome) :
  perform op w = (Done res, w') ->
  rejected_locally op = false ->
  ok res = false ->
  truthy (error res) = true /\ Async.error (api w') = error res.
Proof.
  intros H Hr Hok.
  destruct (perform_cases op w)
    as [(_ & _ & E) | [(_ & Hr' & _) | (_ & _ & p & o & f & Hf & E)]];
    [rewrite E in H; discriminate H | congruence |].
  rewrite E in H. destruct (call_run p o f w) as (res0 & t & Ea & R).
  rewrite R in H. inversion H; subst res w'. clear H R.
  destruct (apiRequest_failure _ _ _ _ _ Ea) as [_ Hfail].
  assert (F : f res0 = res0 /\ ok res0 = false).
  { destruct Hf as [-> | ->]; [now split | now apply listNotes_result_failure]. }
  destruct F as [F Hres]. rewrite F in *. destruct (Hfail Hres) as [_ Ht].
  split; [exact Ht | now apply call_error].
Qed.

(** The data of a list that loaded is an array. *)
Lemma listNotes_array (w w' : World) (res : Outcome) :
  listNotes w = (Done res, w') -> ok res = true -> exists xs, data res = VArr xs.
Proof.
  intros H Hok. unfold listNotes in H.
  destruct (call_run (lit "/notes") (with_method "GET") listNotes_result w)
    as (res0 & t & _ & R).
  rewrite R in H. inversion H; subst res w'. clear H R.
  unfold listNotes_result in *. destruct (ok res0) eqn:E; cbn [negb ok data] in *.
  - destruct (data res0); cbn [isArray]; eauto.
  - congruence.
Qed.

Lemma sanitize_idem (x : NoteInput) :
  sanitizeNoteInput (sanitizeNoteInput x) = sanitizeNoteInput x.
Proof.
  rewrite (sanitize_strings (sanitizeNoteInput x)), (sanitize_strings x).
  cbn [title content default nullish String_]. now rewrite !trim_idem.
Qed.

(** [handleAddNote] after a create that succeeded. *)
Lemma handleAddNote_resume_success (tempId : value) (res : Outcome) (w : World) :
  ok res = true -> truthy (data res) = true ->
  handleAddNote_resume tempId res w
  = (Done tt,
     setBusy false
       (setSelectedNote (data res)
          (setSelectedNoteId (prop (data res) "id")
             (setNotes (fun prev => data res :: List.filter (idIsNot tempId) prev) w)))).
Proof.
  intros Hok Hd. unfold handleAddNote_resume.
  rewrite (succeeded_truthy res Hok Hd). reflexivity.
Qed.

(** [handleDeleteNote] is its optimistic step, the delete, and the
    reload when the delete failed. *)
Lemma handleDeleteNote_run (w : World) :
  truthy (selectedNoteId (app w)) = true ->
  handleDeleteNote w
  = match deleteNote (selectedNoteId (app w)) (delete_pending w) with
    | (Done res, w1) =>
        if ok res then (Done tt, setBusy false w1)
        else
          match listNotes w1 with
          | (Done listRes, w2) =>
              (Done tt,
               setBusy false
                 (if ok listRes
                  then setNotes (fun _ => elements (or_ (data listRes) (VArr []))) w2
                  else w2))
          | (Throw e, w2) => (Throw e, w2)
          end
    | (Throw e, w1) => (Throw e, w1)
    end.
Proof.
  intros H. unfold handleDeleteNote, bind, gets, modify, when, ret. rewrite H.
  cbn [negb]. fold (delete_pending w).
  change (setSelectedNote VNull
            (setSelectedNoteId VNull
               (setNotes (fun prev => List.filter (idIsNot (selectedNoteId (app w))) prev)
                  (setBusy true w)))) with (delete_pending w).
  destruct (deleteNote (selectedNoteId (app w)) (delete_pending w)) as [[res|e] w1];
    [|reflexivity].
  destruct (ok res); cbn [negb]; [reflexivity|].
  destruct (listNotes w1) as [[listRes|e] w2]; [|reflexivity].
  destruct (ok listRes); reflexivity.
Qed.

(** The mount effect is the list and what follows it. *)
Lemma loadNotesEffect_run (w : World) (res : Outcome) (w1 : World) :
  listNotes (list_pending w) = (Done res, w1) ->
  loadNotesEffect w
  = (Done tt,
     setListLoading false
       (if ok res then
          let w2 := setNotes (fun _ => elements (or_ (data res) (VArr []))) w1 in
          if negb (truthy (selectedNoteId (app w))) && truthy (data res)
             && (0 <? Z.of_nat (List.length (elements (data res))))
          then setSelectedNoteId (prop (hd VUndefined (elements (data res))) "id") w2
          else w2
        else setListError (or_ (error res) (VStr (lit "Failed to load notes"))) w1)).
Proof.
  intros H. unfold loadNotesEffect, bind, gets, modify, when, ret.
  change (setListError VNull (setListLoading true w)) with (list_pending w).
  change (selectedNoteId (app (list_pending w))) with (selectedNoteId (app w)).
  rewrite H. destruct (ok res); [|reflexivity].
  destruct (negb (truthy (selectedNoteId (app w))) && truthy (data res)
            && (0 <? Z.of_nat (List.length (elements (data res))))); reflexivity.
Qed.

End CoordinatorMore.

(** X15: a create that succeeds (the outcome is ok and carries a note)
    over a collection of readable entries puts the returned note at the
    head of the collection in place of the placeholder, selects its id,
    shows it as the hydrated note and lowers the busy flag. *)
Theorem create_success_replaces (w : World) (res : Outcome) (w1 : World) :
  let tempId := tempId_at (clock (plat w)) in
  let placeholder := optimistic_note tempId in
  createNote {| title := prop placeholder "title"; content := prop placeholder "content" |}
             (snd (handleAddNote_begin w)) = (Done res, w1) ->
  ok res = true -> truthy (data res) = true ->
  forallb readable (notes (app w)) = true ->
  let w' := snd (handleAddNote w) in
  notes (app w') = data res :: List.filter (idIsNot tempId) (notes (app w))
  /\ selectedNoteId (app w') = prop (data res) "id"
  /\ selectedNote (app w') = data res
  /\ busy (app w') = false.
Proof.
  intros tempId placeholder Hc Hok Hd _ w'.
  pose proof (handleAddNote_run w res w1 Hc) as R. cbv zeta in R. fold tempId in R.
  rewrite (handleAddNote_resume_success tempId res w1 Hok Hd) in R.
  pose proof (perform_app (CreateNote
                {| title := prop placeholder "title"; content := prop placeholder "content" |})
                (snd (handleAddNote_begin w))) as Fa.
  cbn [perform] in Fa. rewrite Hc in Fa. cbn [snd] in Fa.
  rewrite handleAddNote_begin_run in Fa. cbv zeta in Fa. cbn [snd] in Fa.
  subst w'. rewrite R.
  cbn [snd setBusy setSelectedNote setSelectedNoteId setNotes on_app app notes
       selectedNoteId selectedNote busy].
  rewrite Fa.
  cbn [setSelectedNote setSelectedNoteId setNotes setBusy on_app app notes List.filter].
  unfold tempId. rewrite placeholder_filtered. repeat split.
Qed.

Lemma create_success_replaces_witness :
  let w' := snd (handleAddNote (Sample.world (Sample.answering 25 Sample.savedNote))) in
  notes (app w') = [Sample.note7] /\ selectedNoteId (app w') = VNum 7.
Proof.
  destruct (create_success_replaces (Sample.world (Sample.answering 25 Sample.savedNote))
              {| ok := true; status := 200; error := VNull; data := Sample.note7 |}
              _ eq_refl eq_refl eq_refl eq_refl) as (Hn & Hs & _).
  cbv zeta. split; [exact Hn | exact Hs].
Defined.

(** X16: [handleDeleteNote] on a selected note, over a collection of
    readable entries: the selection and the hydrated note are cleared
    whatever the request does; when the delete succeeds the collection is
    the one before without the entries of the selected id; when it fails
    the list is loaded again and replaces the collection if that load
    succeeds, else the optimistic removal stays; when [deleteNote] throws
    the busy flag is left up. *)
Theorem delete_flow (w : World) (r : completion Outcome) (w1 : World) :
  truthy (selectedNoteId (app w)) = true ->
  deleteNote (selectedNoteId (app w)) (delete_pending w) = (r, w1) ->
  forallb readable (notes (app w)) = true ->
  let removed := List.filter (idIsNot (selectedNoteId (app w))) (notes (app w)) in
  let w' := snd (handleDeleteNote w) in
  selectedNoteId (app w') = VNull
  /\ selectedNote (app w') = VNull
  /\ match r with
     | Done res =>
         busy (app w') = false
         /\ (ok res = true -> notes (app w') = removed)
         /\ (ok res = false ->
             forall listRes w2, listNotes w1 = (Done listRes, w2) ->
               (ok listRes = true ->
                exists xs, data listRes = VArr xs /\ notes (app w') = xs)
               /\ (ok listRes = false -> notes (app w') = removed))
     | Throw _ => notes (app w') = removed /\ busy (app w') = true
     end.
Proof.
  intros Hsel Hd _ removed w'.
  pose proof (perform_app (DeleteNote (selectedNoteId (app w))) (delete_pending w)) as Fa.
  cbn [perform] in Fa. rewrite Hd in Fa. cbn [snd] in Fa.
  pose proof (handleDeleteNote_run w Hsel) as R. rewrite Hd in R.
  subst w'. destruct r as [res|e].
  - destruct (ok res) eqn:Hok.
    + rewrite R. cbn [snd setBusy on_app app notes selectedNoteId selectedNote busy].
      rewrite Fa. repeat split. discriminate.
    + pose proof (perform_app ListNotes w1) as Fl. cbn [perform] in Fl.
      destruct (listNotes w1) as [[listRes|e] w2] eqn:L.
      * cbn [snd] in Fl. rewrite R.
        destruct (ok listRes) eqn:Hl;
          cbn [snd setBusy setNotes on_app app notes selectedNoteId selectedNote busy];
          rewrite Fl, Fa;
          (split; [reflexivity|]); (split; [reflexivity|]); (split; [reflexivity|]);
          (split; [discriminate|]);
          intros _ listRes' w2' E; inversion E; subst listRes' w2';
          (split; intros Hl'; [|congruence || reflexivity]); try congruence.
        destruct (listNotes_array _ _ _ L Hl) as [xs Hx]. exists xs.
        split; [exact Hx|]. rewrite Hx. reflexivity.
      * exfalso. unfold listNotes in L.
        destruct (call_run (lit "/notes") (with_method "GET") listNotes_result w1)
          as (res0 & t & _ & R0).
        rewrite R0 in L. discriminate L.
  - rewrite R. cbn [snd]. rewrite Fa. repeat split.
Qed.

Lemma delete_flow_witness :
  let w' := snd (handleDeleteNote (Sample.editing Sample.offline)) in
  selectedNoteId (app w') = VNull /\ selectedNote (app w') = VNull.
Proof.
  destruct (delete_flow (Sample.editing Sample.offline)
              (Done {| ok := false; status := 0; error := VStr (lit "Network error");
                       data := VNull |})
              _ eq_refl eq_refl eq_refl) as (H1 & H2 & _).
  cbv zeta. split; [exact H1 | exact H2].
Defined.

(** X17: with no selection, or one whose id is falsy (null, 0 or the
    empty string), [handleSaveNote] and [handleDeleteNote] return at once
    and change nothing, no request is made, and the selection effect only
    clears the hydrated note. *)
Theorem falsy_selection_is_inert (payload : NoteInput) (w : World) :
  truthy (selectedNoteId (app w)) = false ->
  handleSaveNote payload w = (Done tt, w)
  /\ handleDeleteNote w = (Done tt, w)
  /\ (forall mounted,
        loadSelectedEffect mounted w = (Done tt, setSelectedNote VNull w)).
Proof.
  intros H. unfold handleSaveNote, handleDeleteNote, loadSelectedEffect, bind, gets, ret,
    modify.
  rewrite H. repeat split.
Qed.

(** A note whose id is 0 is listed and selected: it cannot be deleted. *)
Lemma falsy_selection_is_inert_witness :
  let zero := VObj [(lit "id", VNum 0); (lit "title", VStr (lit "First"))] in
  let w := setSelectedNoteId (VNum 0)
             (setNotes (fun _ => [zero]) (Sample.world Sample.offline)) in
  handleDeleteNote w = (Done tt, w).
Proof.
  intros zero w.
  exact (proj1 (proj2 (falsy_selection_is_inert
                         {| title := VStr (lit "x"); content := VNull |} w eq_refl))).
Defined.

(** X18: the load of the list on mount.  When the list loads, the
    collection is the array returned, the list error is null and, if
    nothing was selected and the array is not empty, the id of its first
    note is selected; when it fails, the collection and the selection
    are as before and the failure is the list error and the error shown.
    Either way the list-loading flag ends false and the hydrated note is
    not touched. *)
Theorem mount_load (w : World) (res : Outcome) (w1 : World) :
  listNotes (list_pending w) = (Done res, w1) ->
  forallb readable (elements (data res)) = true ->
  let selected := selectedNoteId (app w) in
  let w' := snd (loadNotesEffect w) in
  listLoading (app w') = false
  /\ selectedNote (app w') = selectedNote (app w)
  /\ (ok res = true ->
      exists xs,
        data res = VArr xs
        /\ notes (app w') = xs
        /\ listError (app w') = VNull
        /\ selectedNoteId (app w')
           = (if truthy selected then selected
              else match xs with
                   | [] => selected
                   | first :: _ => prop first "id"
                   end))
  /\ (ok res = false ->
      notes (app w') = notes (app w)
      /\ selectedNoteId (app w') = selected
      /\ listError (app w') = error res
      /\ appError w' = error res).
Proof.
  intros H _ selected w'.
  pose proof (perform_app ListNotes (list_pending w)) as Fa.
  cbn [perform] in Fa. rewrite H in Fa. cbn [snd] in Fa.
  change (app (list_pending w)) with
    {| notes := notes (app w); selectedNoteId := selectedNoteId (app w);
       selectedNote := selectedNote (app w); busy := busy (app w);
       listLoading := true; listError := VNull; filter := filter (app w) |} in Fa.
  subst w'. rewrite (loadNotesEffect_run w res w1 H). cbn [snd].
  destruct (ok res) eqn:Hok.
  - destruct (listNotes_array _ _ _ H Hok) as [xs Hx]. rewrite Hx.
    cbn [truthy or_ elements andb]. fold selected.
    assert (L : (0 <? Z.of_nat (List.length xs)) = match xs with [] => false | _ => true end).
    { destruct xs; reflexivity. }
    rewrite L.
    destruct (truthy selected) eqn:Ts; cbn [negb andb]; [|destruct xs as [|first rest]];
      cbv zeta;
      cbn [setListLoading setSelectedNoteId setNotes on_app app notes selectedNoteId
           selectedNote listLoading listError hd];
      rewrite Fa;
      (split; [reflexivity|]); (split; [reflexivity|]);
      (split; [|discriminate]); intros _; eexists; repeat split.
  - destruct (perform_failure ListNotes _ _ _ H eq_refl Hok) as [Ht He].
    rewrite (or_truthy _ _ Ht).
    cbn [setListLoading setListError on_app app notes selectedNoteId selectedNote
         listLoading listError].
    rewrite Fa.
    split; [reflexivity|]. split; [reflexivity|]. split; [discriminate|].
    intros _. repeat split. unfold appError.
    cbn [setListLoading setListError on_app api]. rewrite He. now apply or_truthy.
Qed.

Lemma mount_load_witness :
  let w' := snd (loadNotesEffect (Sample.world Sample.offline)) in
  notes (app w') = [] /\ appError w' = VStr (lit "Network error")
  /\ listLoading (app w') = false.
Proof.
  destruct (mount_load (Sample.world Sample.offline)
              {| ok := false; status := 0; error := VStr (lit "Network error");
                 data := VNull |} _ eq_refl eq_refl) as (Hl & _ & _ & Hf).
  destruct (Hf eq_refl) as (Hn & _ & _ & Ha).
  cbv zeta. repeat split; assumption.
Defined.

(** X19: the load of the selected note.  The selected id and the
    collection are never touched.  When the selection is still the same
    as [getNote] settles (the cleanup has not run), the hydrated note
    becomes the data of the response on success and null on failure, and
    the busy flag is lowered.  When the selection has changed meanwhile,
    the response is discarded: the hydrated note is left as it is and
    this run leaves the busy flag up.  The flag is also left up when
    [getNote] throws. *)
Theorem selection_load (mounted : bool) (w : World) (r : completion Outcome)
        (w1 : World) :
  truthy (selectedNoteId (app w)) = true ->
  getNote (selectedNoteId (app w)) (setBusy true w) = (r, w1) ->
  let w' := snd (loadSelectedEffect mounted w) in
  selectedNoteId (app w') = selectedNoteId (app w)
  /\ notes (app w') = notes (app w)
  /\ match r with
     | Done res =>
         if mounted then
           selectedNote (app w') = (if ok res then data res else VNull)
           /\ busy (app w') = false
         else
           selectedNote (app w') = selectedNote (app w) /\ busy (app w') = true
     | Throw _ => selectedNote (app w') = selectedNote (app w) /\ busy (app w') = true
     end.
Proof.
  intros Hsel Hg w'.
  pose proof (perform_app (GetNote (selectedNoteId (app w))) (setBusy true w)) as Fa.
  cbn [perform] in Fa. rewrite Hg in Fa. cbn [snd] in Fa.
  subst w'. unfold loadSelectedEffect, bind, gets, modify, ret. rewrite Hsel. cbn [negb].
  rewrite Hg. destruct r as [res|e].
  - destruct mounted; cbn [negb].
    + destruct (ok res); cbn [snd setBusy setSelectedNote on_app app notes selectedNoteId
                              selectedNote busy]; rewrite Fa; repeat split.
    + cbn [snd]. rewrite Fa. repeat split.
  - cbn [snd]. rewrite Fa. repeat split.
Qed.

(** A load that fails while the selection stays, and the same load
    discarded because the selection moved on. *)
Lemma selection_load_witness :
  let kept := snd (loadSelectedEffect true (Sample.editing Sample.offline)) in
  let stale := snd (loadSelectedEffect false (Sample.editing Sample.offline)) in
  (selectedNote (app kept) = VNull /\ busy (app kept) = false)
  /\ (selectedNote (app stale) = Sample.draft7 /\ busy (app stale) = true).
Proof.
  split.
  - exact (proj2 (proj2 (selection_load true (Sample.editing Sample.offline)
              (Done {| ok := false; status := 0; error := VStr (lit "Network error");
                       data := VNull |}) _ eq_refl eq_refl))).
  - exact (proj2 (proj2 (selection_load false (Sample.editing Sample.offline)
              (Done {| ok := false; status := 0; error := VStr (lit "Network error");
                       data := VNull |}) _ eq_refl eq_refl))).
Defined.

(* ================================================================= *)
(** ** The editor *)

Section EditorFacts.

(** The requests of a save: those of its update. *)
Lemma handleSaveNote_calls (payload : NoteInput) (w : World) :
  truthy (selectedNoteId (app w)) = true ->
  fst (handleSaveNote payload w)
  = match fst (updateNote (selectedNoteId (app w)) payload (setBusy true w)) with
    | Done _ => Done tt
    | Throw e => Throw e
    end
  /\ calls (plat (snd (handleSaveNote payload w)))
     = calls (plat (snd (updateNote (selectedNoteId (app w)) payload (setBusy true w)))).
Proof.
  intros H. rewrite (handleSaveNote_run payload w H).
  destruct (updateNote (selectedNoteId (app w)) payload (setBusy true w)) as [[res|e] w1];
    [|split; reflexivity].
  unfold handleSaveNote_resume, when, bind, modify, ret.
  destruct (truthy (and_ (VBool (ok res)) (data res))); split; reflexivity.
Qed.

End EditorFacts.

(** X20: a submit of the editor whose fields do not validate never calls
    [onSave], whatever that function is: the world is untouched, the
    fields are kept and the messages of the validation (at least one)
    become the errors of the editor. *)
Theorem editor_blocks_invalid (onSave : NoteInput -> M unit) (ed : Editor.EditorState)
        (w : World) :
  let fields := {| title := Editor.title ed; content := Editor.content ed |} in
  valid (validateNote (sanitizeNoteInput fields)) = false ->
  Editor.handleSave onSave ed w
  = (Done tt,
     (Editor.setErrors (errors (validateNote (sanitizeNoteInput fields))) ed, w))
  /\ exists m,
       first_failing_message (errors (validateNote (sanitizeNoteInput fields))) = Some m.
Proof.
  intros fields H. split.
  - unfold Editor.handleSave. fold fields. rewrite H. reflexivity.
  - exact (validateNote_invalid _ H).
Qed.

Lemma editor_blocks_invalid_witness :
  Editor.handleSave handleSaveNote (Editor.setTitle (VStr (lit "   ")) (Editor.init Sample.draft7))
    (Sample.editing Sample.offline)
  = (Done tt,
     (Editor.setErrors {| err_title := Some (lit "Title is required."); err_content := None |}
        (Editor.setTitle (VStr (lit "   ")) (Editor.init Sample.draft7)),
      Sample.editing Sample.offline)).
Proof.
  exact (proj1 (editor_blocks_invalid handleSaveNote
                  (Editor.setTitle (VStr (lit "   ")) (Editor.init Sample.draft7))
                  (Sample.editing Sample.offline) eq_refl)).
Defined.

(** X21: a submit of the editor whose fields validate, with a note
    selected whose id can be encoded, reaches the backend: the check of
    [updateNote] on the payload that the editor has already sanitized
    never rejects it, and exactly one request is issued, a PUT of
    /notes/<encoded id> whose body is the sanitized fields; the editor
    ends with no errors and not saving. *)
Theorem editor_save_sends (ed : Editor.EditorState) (w : World) (e : jsstring) :
  let fields := {| title := Editor.title ed; content := Editor.content ed |} in
  valid (validateNote (sanitizeNoteInput fields)) = true ->
  truthy (selectedNoteId (app w)) = true ->
  encodeURIComponent (String_ (selectedNoteId (app w))) = Some e ->
  let r := Editor.handleSave handleSaveNote ed w in
  fst r = Done tt
  /\ Editor.errors (fst (snd r)) = no_errors
  /\ Editor.saving (fst (snd r)) = false
  /\ calls (plat (snd (snd r)))
     = {| req_url := base (plat w) ++ lit "/notes/" ++ e;
          req_method := lit "PUT";
          req_headers := [(lit "Content-Type", lit "application/json")];
          req_body := Some (Stringified (payload_value (sanitizeNoteInput fields))) |}
       :: calls (plat w).
Proof.
  intros fields Hv Hsel He r.
  assert (Hv' : valid (validateNote (sanitizeNoteInput (sanitizeNoteInput fields))) = true)
    by now rewrite sanitize_idem.
  destruct (handleSaveNote_calls (sanitizeNoteInput fields) w Hsel) as [Hf Hc].
  pose proof (perform_calls (UpdateNote (selectedNoteId (app w)) (sanitizeNoteInput fields))
                (setBusy true w)) as Pc.
  cbn [perform request_of rejected_locally] in Pc.
  rewrite Hv' in Pc. cbn [negb] in Pc.
  change (plat (setBusy true w)) with (plat w) in Pc.
  rewrite He, sanitize_idem in Pc.
  assert (Hd : exists res, fst (updateNote (selectedNoteId (app w))
                                  (sanitizeNoteInput fields) (setBusy true w)) = Done res).
  { destruct (perform_cases (UpdateNote (selectedNoteId (app w)) (sanitizeNoteInput fields))
                (setBusy true w))
      as [(Hn & _) | [(_ & Hr & _) | (_ & _ & p & o & f & _ & E)]].
    - unfold encodable in Hn. cbn [path_id rejected_locally] in Hn.
      rewrite Hv' in Hn. cbn [negb] in Hn. rewrite He in Hn. discriminate Hn.
    - cbn [rejected_locally] in Hr. rewrite Hv' in Hr. discriminate Hr.
    - cbn [perform] in E. rewrite E.
      destruct (call_run p o f (setBusy true w)) as (res & t & _ & R).
      rewrite R. now exists (f res). }
  destruct Hd as [res Hd]. rewrite Hd in Hf.
  subst r. unfold Editor.handleSave. fold fields. rewrite Hv. cbn [negb].
  destruct (handleSaveNote (sanitizeNoteInput fields) w) as [[u|ex] w'] eqn:Eh;
    cbn [fst snd] in *.
  - repeat split. rewrite Hc. exact Pc.
  - discriminate Hf.
Qed.

Lemma editor_save_sends_witness :
  let r := Editor.handleSave handleSaveNote
             (Editor.setTitle (VStr (lit " Plan ")) (Editor.init Sample.draft7))
             (Sample.editing Sample.offline) in
  fst r = Done tt /\ Editor.saving (fst (snd r)) = false.
Proof.
  destruct (editor_save_sends
              (Editor.setTitle (VStr (lit " Plan ")) (Editor.init Sample.draft7))
              (Sample.editing Sample.offline) (lit "7") eq_refl eq_refl eq_refl)
    as (H1 & _ & H2 & _).
  cbv zeta. split; [exact H1 | exact H2].
Defined.

(* ================================================================= *)
(** ** The filter of the sidebar *)

Section FilterFacts.

Variable toLowerCase : jsstring -> jsstring.

Lemma filterNotes_titled (q : jsstring) (l : list value) :
  forallb Filter.titled l = true ->
  Filter.filterNotes toLowerCase q l
  = Done (List.filter
            (fun n => Filter.includes (toLowerCase (Filter.title_text n)) q) l).
Proof.
  induction l as [|n r IH]; cbn [forallb Filter.filterNotes List.filter]; [reflexivity|].
  intros H. apply andb_true_iff in H. destruct H as [Hn Hr].
  rewrite (IH Hr). unfold Filter.matches, Filter.titled, Filter.title_text in *.
  destruct (or_ (prop n "title") (VStr (lit ""))); try discriminate Hn.
  reflexivity.
Qed.

Lemma filterNotes_untitled (q : jsstring) (l : list value) :
  forallb Filter.titled l = false ->
  Filter.filterNotes toLowerCase q l = Throw Filter.TypeError.
Proof.
  induction l as [|n r IH]; cbn [forallb Filter.filterNotes]; [discriminate|].
  intros H. unfold Filter.matches, Filter.titled in *.
  destruct (or_ (prop n "title") (VStr (lit ""))); try reflexivity.
  cbn [andb] in H. now rewrite (IH H).
Qed.

End FilterFacts.

(** X22: the notes the sidebar shows, over a collection of readable
    entries.  A filter that is blank after trimming and lowering shows
    the whole collection, whatever the titles; otherwise, when every
    title is a string or falsy, it shows, in order, the notes whose
    lowered title includes the lowered query, and when some title is a
    truthy value that is no string the computation throws a TypeError. *)
Theorem filtered_notes (toLowerCase : jsstring -> jsstring) (w : World) :
  forallb readable (notes (app w)) = true ->
  let q := toLowerCase (trim (filter (app w))) in
  Filter.filteredNotes toLowerCase w
  = (if negb (truthy (VStr q)) then Done (notes (app w))
     else if forallb Filter.titled (notes (app w))
          then Done (List.filter
                       (fun n => Filter.includes (toLowerCase (Filter.title_text n)) q)
                       (notes (app w)))
          else Throw Filter.TypeError)
  /\ (toLowerCase [] = [] -> allSpace (filter (app w)) = true ->
      Filter.filteredNotes toLowerCase w = Done (notes (app w))).
Proof.
  intros _ q. split.
  - unfold Filter.filteredNotes. fold q. destruct (negb (truthy (VStr q))); [reflexivity|].
    destruct (forallb Filter.titled (notes (app w))) eqn:T.
    + now apply filterNotes_titled.
    + now apply filterNotes_untitled.
  - intros H0 Hs. unfold Filter.filteredNotes. rewrite (trim_allSpace _ Hs), H0.
    reflexivity.
Qed.

Lemma filtered_notes_witness :
  let shop := VObj [(lit "id", VNum 1); (lit "title", VStr (lit "Shopping LIST"))] in
  let work := VObj [(lit "id", VNum 2); (lit "title", VStr (lit "Work"))] in
  let bare := VObj [(lit "id", VNum 3)] in
  let w := on_app (fun a => {| notes := [shop; work; bare];
                               selectedNoteId := selectedNoteId a;
                               selectedNote := selectedNote a; busy := busy a;
                               listLoading := listLoading a; listError := listError a;
                               filter := lit " List " |})
                  (Sample.world Sample.offline) in
  Filter.filteredNotes Filter.asciiLower w = Done [shop].
Proof.
  intros shop work bare w.
  rewrite (proj1 (filtered_notes Filter.asciiLower w eq_refl)). reflexivity.
Defined.

(** X23: a create touches no other entry: over a collection of readable
    entries none of which carries the temporary id, a create that fails
    leaves the collection exactly as it was, and a create that succeeds
    leaves it with the returned note put in front. *)
Theorem create_keeps_others (w : World) (res : Outcome) (w1 : World) :
  let tempId := tempId_at (clock (plat w)) in
  let placeholder := optimistic_note tempId in
  createNote {| title := prop placeholder "title"; content := prop placeholder "content" |}
             (snd (handleAddNote_begin w)) = (Done res, w1) ->
  forallb readable (notes (app w)) = true ->
  forallb (idIsNot tempId) (notes (app w)) = true ->
  notes (app (snd (handleAddNote w)))
  = if ok res && truthy (data res) then data res :: notes (app w) else notes (app w).
Proof.
  intros tempId placeholder Hc _ Hfresh.
  assert (Hf : List.filter (idIsNot tempId) (notes (app w)) = notes (app w)).
  { clear Hc. induction (notes (app w)) as [|n l IH]; [reflexivity|].
    cbn [forallb] in Hfresh. apply andb_true_iff in Hfresh. destruct Hfresh as [Hn Hl].
    cbn [List.filter]. rewrite Hn, (IH Hl). reflexivity. }
  pose proof (handleAddNote_run w res w1 Hc) as R. cbv zeta in R. fold tempId in R.
  pose proof (perform_app (CreateNote
                {| title := prop placeholder "title"; content := prop placeholder "content" |})
                (snd (handleAddNote_begin w))) as Fa.
  cbn [perform] in Fa. rewrite Hc in Fa. cbn [snd] in Fa.
  rewrite handleAddNote_begin_run in Fa. cbv zeta in Fa. cbn [snd] in Fa.
  rewrite R.
  destruct (ok res) eqn:Hok; [destruct (truthy (data res)) eqn:Hd|]; cbn [andb].
  - rewrite (handleAddNote_resume_success tempId res w1 Hok Hd).
    cbn [snd setBusy setSelectedNote setSelectedNoteId setNotes on_app app notes].
    rewrite Fa.
    cbn [setSelectedNote setSelectedNoteId setNotes setBusy on_app app notes List.filter].
    unfold tempId in *. rewrite placeholder_filtered, Hf. reflexivity.
  - rewrite (handleAddNote_resume_failure tempId res w1 (or_intror Hd)).
    cbn [snd setBusy setNotes on_app app notes]. rewrite Fa.
    cbn [setSelectedNote setSelectedNoteId setNotes setBusy on_app app notes List.filter].
    unfold tempId in *. rewrite placeholder_filtered, Hf. reflexivity.
  - rewrite (handleAddNote_resume_failure tempId res w1 (or_introl Hok)).
    cbn [snd setBusy setNotes on_app app notes]. rewrite Fa.
    cbn [setSelectedNote setSelectedNoteId setNotes setBusy on_app app notes List.filter].
    unfold tempId in *. rewrite placeholder_filtered, Hf. reflexivity.
Qed.

Lemma create_keeps_others_witness :
  notes (app (snd (handleAddNote (Sample.editing Sample.offline)))) = [Sample.draft7].
Proof.
  exact (create_keeps_others (Sample.editing Sample.offline)
           {| ok := false; status := 0; error := VStr (lit "Network error");
              data := VNull |} _ eq_refl eq_refl eq_refl).
Defined.
